(** * MatriAI dashboard: the mock [/match] route, the search form's request
      builder and the compatibility score of the review panel.

    The development follows the TypeScript sources:
    - [app/api/match/route.ts]: the [GET] handler and its [mockResults];
    - the dashboard page: [handleSearch], which builds the [/match] URL;
    - the AI review panel: [generateCompatibilityScore].

    JavaScript values are embedded as a small tagged union, objects as finite
    maps from property names to values, [URLSearchParams] as the ordered list
    of name/value pairs it is. *)

From Stdlib Require Import ZArith Lia.
From stdpp Require Import base strings gmap list pretty.

Local Open Scope Z_scope.
#[local] Set Warnings "-clear-no-such-hyp".

(** ** JavaScript values *)

Module Js.

#[warnings="-register-all"]
Inductive JsVal : Type :=
| JsNull
| JsBool (b : bool)
| JsNum (n : Z)
| JsStr (s : string)
| JsArr (l : list JsVal)
| JsObj (m : gmap string JsVal).

(** An object literal [{k1: v1, ..., kn: vn}] with pairwise distinct keys. *)
Definition obj (entries : list (string * JsVal)) : JsVal :=
  JsObj (list_to_map entries).

(** Property access [v.k]; [None] stands for [undefined]. *)
Definition field (k : string) (v : JsVal) : option JsVal :=
  match v with
  | JsObj m => m !! k
  | _ => None
  end.

Definition keys (v : JsVal) : gset string :=
  match v with
  | JsObj m => dom m
  | _ => ∅
  end.

Definition as_str (v : JsVal) : option string :=
  match v with JsStr s => Some s | _ => None end.

Definition as_num (v : JsVal) : option Z :=
  match v with JsNum n => Some n | _ => None end.

Definition as_arr (v : JsVal) : option (list JsVal) :=
  match v with JsArr l => Some l | _ => None end.

(** [a || d] where [a] is a string or [null]: the empty string and [null]
    are falsy. *)
Definition str_or (a : option string) (d : string) : string :=
  match a with
  | Some s => if decide (s = "") then d else s
  | None => d
  end.

(** Truthiness of a value, as [||], [&&] and [if] test it. *)
Definition truthy (v : JsVal) : bool :=
  match v with
  | JsNull => false
  | JsBool b => b
  | JsNum n => negb (n =? 0)
  | JsStr s => negb (bool_decide (s = ""))
  | JsArr _ | JsObj _ => true
  end.

(** [v || d] where [v] may be [undefined] ([None]). *)
Definition or_else (v : option JsVal) (d : JsVal) : JsVal :=
  match v with
  | Some x => if truthy x then x else d
  | None => d
  end.

(** [String(v)]: an array is its elements' strings joined by commas, with
    [null] elements left empty; any plain object is "[object Object]". *)
Fixpoint js_toString (v : JsVal) : string :=
  match v with
  | JsNull => "null"
  | JsBool b => if b then "true" else "false"
  | JsNum n => pretty n
  | JsStr s => s
  | JsArr l =>
      String.concat ","
        ((fix go (l : list JsVal) : list string :=
            match l with
            | [] => []
            | x :: l' =>
                match x with JsNull => "" | _ => js_toString x end :: go l'
            end) l)
  | JsObj _ => "[object Object]"
  end.

End Js.

Import Js.

(** ** URLSearchParams *)

Module URLSearchParams.

(** The parameters in the order they were appended or parsed; a name may
    occur several times. *)
Definition t : Type := list (string * string).

Definition append (q : t) (name value : string) : t := q ++ [(name, value)].

(** [get name]: the value of the first pair called [name], [null] when there
    is none. *)
Fixpoint get (q : t) (name : string) : option string :=
  match q with
  | [] => None
  | (k, v) :: q' => if decide (k = name) then Some v else get q' name
  end.

Definition has (q : t) (name : string) : bool :=
  bool_decide (name ∈ q.*1).

(** [Object.fromEntries(q)]: properties are assigned in iteration order, so
    a later pair overwrites an earlier one of the same name. *)
Definition fromEntries (q : t) : gmap string string :=
  foldl (λ m kv, <[kv.1 := kv.2]> m) ∅ q.

(** The value of the last pair called [name]. *)
Definition get_last (q : t) (name : string) : option string :=
  get (reverse q) name.

(** The application/x-www-form-urlencoded byte serializer behind
    [toString]: a space becomes [+], the bytes [*], [-], [.], [_], digits and
    ASCII letters stay, every other byte is written [%XX] in upper-case
    hexadecimal.  A string is the sequence of its UTF-8 bytes. *)
Definition hex_digit (n : N) : Ascii.ascii :=
  Ascii.ascii_of_N (if (n <? 10)%N then 48 + n else 55 + n).

Definition percent_encode (c : Ascii.ascii) : string :=
  let n := Ascii.N_of_ascii c in
  String (Ascii.ascii_of_N 37) (String (hex_digit (n / 16)) (String (hex_digit (n mod 16)) EmptyString)).

Definition form_safe (c : Ascii.ascii) : bool :=
  let n := Ascii.N_of_ascii c in
  ((n =? 42) || (n =? 45) || (n =? 46) || (n =? 95)
   || ((48 <=? n) && (n <=? 57))
   || ((65 <=? n) && (n <=? 90))
   || ((97 <=? n) && (n <=? 122)))%N.

Definition is_byte (n : N) (c : Ascii.ascii) : bool :=
  (Ascii.N_of_ascii c =? n)%N.

Definition encode_byte (c : Ascii.ascii) : string :=
  if is_byte 32 c then "+"
  else if form_safe c then String c EmptyString
  else percent_encode c.

Fixpoint urlencode (s : string) : string :=
  match s with
  | EmptyString => EmptyString
  | String c s' => encode_byte c +:+ urlencode s'
  end.

(** One [name=value] piece of the query string. *)
Definition piece (kv : string * string) : string :=
  urlencode kv.1 +:+ "=" +:+ urlencode kv.2.

(** [q.toString()]: the pieces joined by [&]. *)
Definition toString (q : t) : string :=
  String.concat "&" (piece <$> q).

(** The application/x-www-form-urlencoded parser behind
    [new URL(url).searchParams]: the query string is split at every [&],
    empty sequences are skipped, each sequence is cut at its first [=] (the
    value is empty when there is none), and in name and value [+] is read as
    a space and [%XX] as the byte it spells. *)
Fixpoint contains (n : N) (s : string) : bool :=
  match s with
  | EmptyString => false
  | String c s' => is_byte n c || contains n s'
  end.

Fixpoint split_on (n : N) (s : string) : list string :=
  match s with
  | EmptyString => [EmptyString]
  | String c s' =>
      if is_byte n c then EmptyString :: split_on n s'
      else match split_on n s' with
           | h :: rest => String c h :: rest
           | [] => [String c EmptyString]
           end
  end.

(** [s] cut at its first byte [n]: what is before it and what is after it;
    all of [s] and the empty string when [s] has no byte [n]. *)
Fixpoint cut_at (n : N) (s : string) : string * string :=
  match s with
  | EmptyString => (EmptyString, EmptyString)
  | String c s' =>
      if is_byte n c then (EmptyString, s')
      else let '(a, b) := cut_at n s' in (String c a, b)
  end.

Definition hex_val (c : Ascii.ascii) : option N :=
  let n := Ascii.N_of_ascii c in
  if ((48 <=? n) && (n <=? 57))%N then Some (n - 48)%N
  else if ((65 <=? n) && (n <=? 70))%N then Some (n - 55)%N
  else if ((97 <=? n) && (n <=? 102))%N then Some (n - 87)%N
  else None.

Fixpoint urldecode (s : string) : string :=
  match s with
  | EmptyString => EmptyString
  | String c s' =>
      if is_byte 43 c then String (Ascii.ascii_of_N 32) (urldecode s')
      else if is_byte 37 c then
        match s' with
        | String h (String l s'') =>
            match hex_val h, hex_val l with
            | Some a, Some b =>
                String (Ascii.ascii_of_N (16 * a + b)) (urldecode s'')
            | _, _ => String c (urldecode s')
            end
        | _ => String c (urldecode s')
        end
      else String c (urldecode s')
  end.

Definition parse_piece (s : string) : string * string :=
  let '(name, value) := cut_at 61 s in (urldecode name, urldecode value).

Definition parse (query : string) : t :=
  parse_piece <$> filter (λ s, s ≠ EmptyString) (split_on 38 query).

(** The query of a URL: what follows its first [?], up to the fragment. *)
Definition url_query (url : string) : string :=
  (cut_at 63 (cut_at 35 url).1).2.

(** [new URL(url).searchParams] *)
Definition of_url (url : string) : t := parse (url_query url).

End URLSearchParams.

(** ** The profile record shared by the dashboard components

    [interface Match] of the page, the review panel and the match card. *)

Record Match : Type := mkMatch {
  _id : string;
  Age : Z;
  Gender : string;
  Caste : option string;
  Sect : option string;
  State : option string;
  Marital_Status : option string;
  content : option string
}.

(** An optional string property: absent, or present with a string value. *)
Definition opt_str_field (k : string) (v : JsVal) : option (option string) :=
  match field k v with
  | None => Some None
  | Some (JsStr s) => Some (Some s)
  | Some _ => None
  end.

(** Reading a JSON record as a [Match]: [_id], [Age] and [Gender] are
    required, the other properties optional, as the interface declares. *)
Definition as_match (v : JsVal) : option Match :=
  id ← field "_id" v ≫= as_str;
  age ← field "Age" v ≫= as_num;
  gender ← field "Gender" v ≫= as_str;
  caste ← opt_str_field "Caste" v;
  sect ← opt_str_field "Sect" v;
  state ← opt_str_field "State" v;
  marital ← opt_str_field "Marital_Status" v;
  cont ← opt_str_field "content" v;
  Some (mkMatch id age gender caste sect state marital cont).

Definition profile_shaped (v : JsVal) : Prop := is_Some (as_match v).

(** ** [app/api/match/route.ts] *)

Module Route.

Record Response : Type := mkResponse {
  status : Z;
  body : JsVal
}.

(** [Response.json(data)] with no init: status 200. *)
Definition Response_json (data : JsVal) : Response :=
  {| status := 200; body := data |}.

(** [response.ok] *)
Definition ok (r : Response) : bool :=
  bool_decide (200 ≤ status r ≤ 299).

Definition mockResults : list JsVal :=
  [ obj [ ("_id", JsStr "507f1f77bcf86cd799439011");
          ("Age", JsNum 28);
          ("Gender", JsStr "Female");
          ("Caste", JsStr "Brahmin");
          ("Sect", JsStr "Hindu");
          ("State", JsStr "California");
          ("Marital_Status", JsStr "Never Married");
          ("content", JsStr "Looking for a caring and ambitious partner who values family and personal growth.") ];
    obj [ ("_id", JsStr "507f1f77bcf86cd799439012");
          ("Age", JsNum 26);
          ("Gender", JsStr "Female");
          ("Caste", JsStr "Kshatriya");
          ("Sect", JsStr "Hindu");
          ("State", JsStr "Texas");
          ("Marital_Status", JsStr "Never Married");
          ("content", JsStr "Passionate about travel and cooking. Seeking someone with similar interests.") ];
    obj [ ("_id", JsStr "507f1f77bcf86cd799439013");
          ("Age", JsNum 29);
          ("Gender", JsStr "Female");
          ("Caste", JsStr "Brahmin");
          ("Sect", JsStr "Hindu");
          ("State", JsStr "New York");
          ("Marital_Status", JsStr "Never Married");
          ("content", JsStr "Professional woman interested in building a meaningful relationship.") ] ].

(** The handler, as a function of the request URL's [searchParams]. *)
Definition GET (searchParams : URLSearchParams.t) : Response :=
  Response_json (obj
    [ ("query", JsStr (str_or (URLSearchParams.get searchParams "query")
                              "looking for suitable partner"));
      ("filters", JsObj (JsStr <$> URLSearchParams.fromEntries searchParams));
      ("candidates", JsNum 45);
      ("took_ms", JsNum 234);
      ("results", JsArr mockResults) ]).

(** Modelled from the spec: an InvalidRequest error is surfaced to the
    caller as a 4xx-equivalent response. *)
Definition invalid_request (r : Response) : bool :=
  bool_decide (400 ≤ status r ≤ 499).

(** The [results] array of a response body. *)
Definition results (r : Response) : option (list JsVal) :=
  field "results" (body r) ≫= as_arr.

Definition candidates (r : Response) : option Z :=
  field "candidates" (body r) ≫= as_num.

Definition query (r : Response) : option string :=
  field "query" (body r) ≫= as_str.

End Route.

(** ** Structured filters of a match request

    The handler under [route.ts] never reads the filter parameters; what it
    means for a record to satisfy them is taken from the specification. *)

(** ASCII lower-casing, for case-insensitive comparison. *)
Definition lower_ascii (c : Ascii.ascii) : Ascii.ascii :=
  let n := Ascii.N_of_ascii c in
  if bool_decide (65 ≤ n ≤ 90)%N then Ascii.ascii_of_N (n + 32) else c.

Fixpoint lower (s : string) : string :=
  match s with
  | EmptyString => EmptyString
  | String c s' => String (lower_ascii c) (lower s')
  end.

Definition ci_eqb (a b : string) : bool := bool_decide (lower a = lower b).

Definition digit_of (c : Ascii.ascii) : option Z :=
  let n := Z.of_N (Ascii.N_of_ascii c) in
  if bool_decide (48 ≤ n ≤ 57) then Some (n - 48) else None.

Fixpoint parse_digits (acc : Z) (s : string) : option Z :=
  match s with
  | EmptyString => Some acc
  | String c s' => d ← digit_of c; parse_digits (10 * acc + d) s'
  end.

(** Modelled from the spec: the numeric query parameters ([min_age],
    [max_age], [top_k]) are integers written in decimal; the handler under
    [route.ts] never parses them.  A non-empty string of decimal digits,
    with an optional sign [-] or [+] in front, is read as that number (so
    every integer [handleSearch] prints, negative ones included, is read
    back); anything else as no number. *)
Definition parse_int (s : string) : option Z :=
  match s with
  | EmptyString => None
  | String c rest =>
      if bool_decide (Ascii.N_of_ascii c = 45%N) then
        match rest with
        | EmptyString => None
        | _ => Z.opp <$> parse_digits 0 rest
        end
      else if bool_decide (Ascii.N_of_ascii c = 43%N) then
        match rest with
        | EmptyString => None
        | _ => parse_digits 0 rest
        end
      else parse_digits 0 s
  end.

(** Modelled from the spec: the common filter set of a match query, each
    filter optional. *)
Record FilterSet : Type := mkFilterSet {
  f_gender : option string;
  f_min_age : option Z;
  f_max_age : option Z;
  f_caste : option string;
  f_sect : option string;
  f_state : option string;
  f_marital_status : option string
}.

(** The filters a request specifies, read off its query parameters; of a
    repeated name the first value is taken, as [searchParams.get] gives it.
    The statements about filters below hold of every filter set, so they do
    not rest on this choice. *)
Definition filters_of (q : URLSearchParams.t) : FilterSet :=
  {| f_gender := URLSearchParams.get q "gender";
     f_min_age := URLSearchParams.get q "min_age" ≫= parse_int;
     f_max_age := URLSearchParams.get q "max_age" ≫= parse_int;
     f_caste := URLSearchParams.get q "caste";
     f_sect := URLSearchParams.get q "sect";
     f_state := URLSearchParams.get q "state";
     f_marital_status := URLSearchParams.get q "marital_status" |}.

Definition top_k_of (q : URLSearchParams.t) : option Z :=
  URLSearchParams.get q "top_k" ≫= parse_int.

(** A string filter holds of a profile field when the field is present and
    equal to the wanted value up to letter case; an unspecified filter holds
    of everything. *)
Definition str_filter_holds (want have : option string) : bool :=
  match want with
  | None => true
  | Some w =>
      match have with
      | Some h => ci_eqb h w
      | None => false
      end
  end.

Definition min_age_holds (want : option Z) (age : Z) : bool :=
  match want with None => true | Some lo => bool_decide (lo ≤ age) end.

Definition max_age_holds (want : option Z) (age : Z) : bool :=
  match want with None => true | Some hi => bool_decide (age ≤ hi) end.

(** Modelled from the spec: a profile satisfies a filter set when every
    specified filter holds of it. *)
Definition satisfies (f : FilterSet) (m : Match) : bool :=
  str_filter_holds (f_gender f) (Some (Gender m))
  && min_age_holds (f_min_age f) (Age m)
  && max_age_holds (f_max_age f) (Age m)
  && str_filter_holds (f_caste f) (Caste m)
  && str_filter_holds (f_sect f) (Sect m)
  && str_filter_holds (f_state f) (State m)
  && str_filter_holds (f_marital_status f) (Marital_Status m).

(** A JSON record satisfies a filter set when it reads as a profile that
    does. *)
Definition record_satisfies (f : FilterSet) (v : JsVal) : bool :=
  match as_match v with
  | Some m => satisfies f m
  | None => false
  end.

(** The request modes: [user_id] selects the profile-seeded mode, otherwise
    [query] the free-text one. *)
Definition mode_b_seed (q : URLSearchParams.t) : option string :=
  URLSearchParams.get q "user_id".

(** A record carries a numeric property [k] and the list is in
    non-increasing order of it. *)
Definition scores_by (k : string) (rs : list JsVal) : option (list Z) :=
  mapM (λ r, field k r ≫= as_num) rs.

Fixpoint non_increasing (l : list Z) : bool :=
  match l with
  | x :: ((y :: _) as l') => bool_decide (y ≤ x) && non_increasing l'
  | _ => true
  end.

Definition sorted_by_score (k : string) (rs : list JsVal) : Prop :=
  ∃ scores, scores_by k rs = Some scores ∧ non_increasing scores = true.

(** The [_id] string of each record of a list, [None] for a record without. *)
Definition ids (rs : list JsVal) : list (option string) :=
  (λ r, field "_id" r ≫= as_str) <$> rs.

(** ** The dashboard page: [handleSearch] *)

Module Page.

Definition API_BASE_URL : string := "http://localhost:3000".

Record SearchParams : Type := mkSearchParams {
  gender : option string;
  same_gender : option bool;
  age_range : option (Z * Z);
  caste : option string;
  sect : option string;
  marital_status : option string;
  state : option string;
  preference : option string;
  user_id : option string;
  age_tolerance : option Z
}.

(** [if (s) queryParams.append(name, s)] for an optional string [s]:
    [undefined] and the empty string are falsy. *)
Definition append_if_str (q : URLSearchParams.t) (name : string)
    (s : option string) : URLSearchParams.t :=
  match s with
  | Some v => if decide (v = "") then q else URLSearchParams.append q name v
  | None => q
  end.

(** [n.toString()] for an integer [n]: its plain decimal text.  This is
    what JavaScript prints for every safe integer ([safe_integer] below);
    from 1e21 on it switches to exponent notation, which is not modelled. *)
Definition Number_toString (n : Z) : string := pretty n.

(** The query parameters [handleSearch] collects, statement by statement. *)
Definition queryParams (params : SearchParams) : URLSearchParams.t :=
  let q := [] in
  let q := append_if_str q "query" (preference params) in
  let q := append_if_str q "user_id" (user_id params) in
  let q := append_if_str q "gender" (gender params) in
  let q := match same_gender params with
           | Some true => URLSearchParams.append q "same_gender" "true"
           | _ => q
           end in
  let q := append_if_str q "caste" (caste params) in
  let q := append_if_str q "sect" (sect params) in
  let q := append_if_str q "marital_status" (marital_status params) in
  let q := append_if_str q "state" (state params) in
  let q := match age_tolerance params with
           | Some n => URLSearchParams.append q "age_tolerance" (Number_toString n)
           | None => q
           end in
  let q := match age_range params with
           | Some (lo, hi) =>
               URLSearchParams.append
                 (URLSearchParams.append q "min_age" (Number_toString lo))
                 "max_age" (Number_toString hi)
           | None => q
           end in
  URLSearchParams.append q "top_k" "10".

(** The URL [handleSearch] fetches. *)
Definition url (params : SearchParams) : string :=
  API_BASE_URL +:+ "/match?" +:+ URLSearchParams.toString (queryParams params).

End Page.

(** ** The AI review panel: [generateCompatibilityScore] *)

Module AIReviewPanel.

(** The score accumulated before the final [Math.min(score, 100)]. *)
Definition score_before_cap (match1 match2 : Match) : Z :=
  let score := 70 in
  let score := if bool_decide (Caste match1 = Caste match2) then score + 5 else score in
  let score := if bool_decide (Sect match1 = Sect match2) then score + 5 else score in
  let score := if bool_decide (State match1 = State match2) then score + 5 else score in
  let score := if bool_decide (Z.abs (Age match1 - Age match2) ≤ 5) then score + 5 else score in
  let score := if bool_decide (Marital_Status match1 = Marital_Status match2) then score + 5 else score in
  score.

Definition generateCompatibilityScore (match1 match2 : option Match) : Z :=
  match match1, match2 with
  | Some m1, Some m2 => Z.min (score_before_cap m1 m2) 100
  | _, _ => 0
  end.

(** The reasons [generateReasons] pushes when both matches are present, in
    push order. *)
Definition pushed_reasons (match1 match2 : Match) : list string :=
  let reasons := [] in
  let reasons := if bool_decide (Caste match1 = Caste match2)
                 then reasons ++ ["Matching caste background"] else reasons in
  let reasons := if bool_decide (Sect match1 = Sect match2)
                 then reasons ++ ["Same religious sect"] else reasons in
  let reasons := if bool_decide (State match1 = State match2)
                 then reasons ++ ["Same geographic location"] else reasons in
  let reasons := if bool_decide (Z.abs (Age match1 - Age match2) ≤ 5)
                 then reasons ++ ["Compatible age range"] else reasons in
  let reasons := if bool_decide (Marital_Status match1 = Marital_Status match2)
                 then reasons ++ ["Similar marital status"] else reasons in
  reasons.

Definition generic_reasons : list string :=
  ["Strong compatibility indicators"; "Shared values"; "Life stage alignment"].

Definition generateReasons (match1 match2 : option Match) : list string :=
  let reasons :=
    match match1, match2 with
    | Some m1, Some m2 => pushed_reasons m1 m2
    | _, _ => []
    end in
  if bool_decide (0 < length reasons)%nat then reasons else generic_reasons.

(** [reasons.slice(0, 4)]: the reasons the panel lists. *)
Definition listed_reasons (match1 match2 : option Match) : list string :=
  take 4 (generateReasons match1 match2).

End AIReviewPanel.

(** ** The dashboard page: what it derives from its matches *)

Module Home.

(** [matches.slice(0, 2)] *)
Definition topMatches (matches : list Match) : list Match := take 2 matches.

(** [matches.slice(0, 10)] *)
Definition allCandidates (matches : list Match) : list Match := take 10 matches.

(** The score of the review panel the page renders with
    [match1={topMatches[0]}] and [match2={topMatches[1]}]. *)
Definition review_score (matches : list Match) : Z :=
  AIReviewPanel.generateCompatibilityScore
    (topMatches matches !! 0%nat) (topMatches matches !! 1%nat).

Definition review_reasons (matches : list Match) : list string :=
  AIReviewPanel.listed_reasons
    (topMatches matches !! 0%nat) (topMatches matches !! 1%nat).

(** *** The page state and [handleSearch]'s handling of the response *)

(** The component's [useState] cells.  [matches] and [totalCandidates] hold
    whatever the response carried: nothing checks it against [Match[]] or
    [number]. *)
Record State : Type := mkState {
  searchParams : Page.SearchParams;
  matches : JsVal;
  loading : bool;
  error : option string;
  totalCandidates : JsVal
}.

Definition no_params : Page.SearchParams :=
  Page.mkSearchParams None None None None None None None None None None.

Definition initial : State :=
  {| searchParams := no_params; matches := JsArr []; loading := false;
     error := None; totalCandidates := JsNum 0 |}.

(** A value caught by [catch (err)]: an [Error] with its message, or
    something that is not an [Error]. *)
Inductive Thrown : Type :=
| ThrownError (message : string)
| ThrownOther.

(** What [await response.json()] gives: the parsed body, or a rejection
    with the parser's [Error]. *)
Inductive Body : Type :=
| Json (data : JsVal)
| NotJson (message : string).

(** What [await fetch(url, ...)] gives: a rejection, or a response with its
    status and body. *)
Inductive Fetched : Type :=
| Rejected (err : Thrown)
| Responded (status : Z) (body : Body).

(** [response.ok] *)
Definition response_ok (status : Z) : bool := bool_decide (200 ≤ status ≤ 299).

Section Engine.

(** The message of the [TypeError] the engine throws for reading the named
    property of [null]; its wording differs between engines. *)
Variable null_read_message : string → string.

(** [data.name] for a parsed body [data]: reading a property of [null]
    throws, any other value without the property gives [undefined]. *)
Definition read (name : string) (data : JsVal) : Thrown + option JsVal :=
  match data with
  | JsNull => inl (ThrownError (null_read_message name))
  | _ => inr (field name data)
  end.

(** The body of the [try] block from the [fetch] on: the new [matches] and
    [totalCandidates], or what is thrown. *)
Definition try_fetch (fetched : Fetched) : Thrown + JsVal * JsVal :=
  match fetched with
  | Rejected err => inl err
  | Responded status body =>
      if negb (response_ok status) then
        let errorData := match body with Json d => d | NotJson _ => obj [] end in
        match read "detail" errorData with
        | inl err => inl err
        | inr detail =>
            inl (ThrownError
                   (js_toString
                      (or_else detail
                         (JsStr ("API error: " +:+ Page.Number_toString status)))))
        end
      else
        match body with
        | NotJson message => inl (ThrownError message)
        | Json data =>
            match read "results" data with
            | inl err => inl err
            | inr results =>
                match read "candidates" data with
                | inl err => inl err
                | inr candidates =>
                    inr (or_else results (JsArr []), or_else candidates (JsNum 0))
                end
            end
        end
  end.

(** [err instanceof Error ? err.message : "..."] *)
Definition errorMessage (err : Thrown) : string :=
  match err with
  | ThrownError message => message
  | ThrownOther => "An error occurred while fetching matches"
  end.

(** The state updates before the [fetch]: the search is pending. *)
Definition handleSearch_begin (params : Page.SearchParams) (s : State) : State :=
  {| searchParams := params; matches := matches s; loading := true;
     error := None; totalCandidates := totalCandidates s |}.

(** The state updates once the [fetch] has settled: the rest of [try], or
    [catch], and then [finally]. *)
Definition handleSearch_settle (fetched : Fetched) (s : State) : State :=
  match try_fetch fetched with
  | inr (results, candidates) =>
      {| searchParams := searchParams s; matches := results; loading := false;
         error := error s; totalCandidates := candidates |}
  | inl err =>
      {| searchParams := searchParams s; matches := JsArr []; loading := false;
         error := Some (errorMessage err); totalCandidates := totalCandidates s |}
  end.

(** A search that settles before anything else happens. *)
Definition handleSearch (params : Page.SearchParams) (fetched : Fetched)
    (s : State) : State :=
  handleSearch_settle fetched (handleSearch_begin params s).

End Engine.

(** The wording of V8 (Chrome, Node). *)
Definition v8_null_read_message (name : string) : string :=
  "Cannot read properties of null (reading '" +:+ name +:+ "')".

Definition handleClear (s : State) : State :=
  {| searchParams := no_params; matches := JsArr []; loading := loading s;
     error := None; totalCandidates := totalCandidates s |}.

(** What the mock route of this repository answers to the request
    [handleSearch] sends for [params]. *)
Definition mock_fetch (params : Page.SearchParams) : Fetched :=
  let response := Route.GET (URLSearchParams.of_url (Page.url params)) in
  Responded (Route.status response) (Json (Route.body response)).

(** *** Sequences of user actions *)




(** *** Which panels the page shows *)

(** [error && (...)]: the banner, shown for a non-empty message. *)
Definition shows_error (s : State) : bool :=
  match error s with
  | Some message => negb (bool_decide (message = ""))
  | None => false
  end.

Definition shows_loading (s : State) : bool := loading s.

(** [!loading && matches.length === 0 && !error], for an array [matches]. *)
Definition shows_empty (s : State) (ms : list JsVal) : bool :=
  negb (loading s) && bool_decide (length ms = 0%nat) && negb (shows_error s).

(** [!loading && topMatches.length > 0], for an array [matches]. *)
Definition shows_results (s : State) (ms : list JsVal) : bool :=
  negb (loading s) && bool_decide (0 < length (take 2 ms))%nat.

(** A record the match cards and the candidates list can render: it reads
    as a [Match].  They dereference each record they are given
    ([key={match._id}], [match._id.slice(0, 8)], [candidate._id.slice(0, 6)]),
    which throws for [null] and for a record without a string [_id]. *)
Definition renderable (v : JsVal) : bool := bool_decide (is_Some (as_match v)).

(** The panels shown, in the order error banner, spinner, empty state,
    results.  Rendering is modelled when [matches] is an array and the
    records it puts on screen are renderable: none while the spinner hides
    them, the first ten otherwise (the two cards are the first two of the
    ten of the candidates list).  [None] otherwise: the render then may
    throw ([matches.slice] of a non-array, [_id] of a malformed record). *)
Definition panels (s : State) : option (bool * bool * bool * bool) :=
  ms ← as_arr (matches s);
  if loading s || forallb renderable (take 10 ms)
  then Some (shows_error s, shows_loading s, shows_empty s ms, shows_results s ms)
  else None.

End Home.

(** The filter sets that all three mock records satisfy: a gender filter
    spelling "female", an age window containing 26..29, a sect filter
    spelling "hindu", a marital-status filter spelling "never married", and
    no caste or state filter (the records differ in both). *)
Definition mock_admits (f : FilterSet) : Prop :=
  (∀ g, f_gender f = Some g → lower g = "female")
  ∧ (∀ lo, f_min_age f = Some lo → lo ≤ 26)
  ∧ (∀ hi, f_max_age f = Some hi → 29 ≤ hi)
  ∧ f_caste f = None
  ∧ (∀ s, f_sect f = Some s → lower s = "hindu")
  ∧ f_state f = None
  ∧ (∀ m, f_marital_status f = Some m → lower m = "never married").

(** Modelled from the spec: a valid Mode A (free-text) query has a non-empty
    [query] text and no [user_id]. *)
Definition valid_mode_a (q : URLSearchParams.t) : Prop :=
  (∃ s, URLSearchParams.get q "query" = Some s ∧ s ≠ "")
  ∧ URLSearchParams.get q "user_id" = None.

(** The property names of the [Match] interface. *)
Definition profile_keys : gset string :=
  {[ "_id"; "Age"; "Gender"; "Caste"; "Sect"; "State"; "Marital_Status"; "content" ]}.

(** A string free of the bytes that structure a URL: [#], [&], [=], [?]. *)
Definition clean (s : string) : Prop :=
  URLSearchParams.contains 35 s = false ∧ URLSearchParams.contains 38 s = false
  ∧ URLSearchParams.contains 61 s = false ∧ URLSearchParams.contains 63 s = false.

(** The three records of [mockResults], read as profiles. *)
Definition mock_matches : list Match :=
  [ mkMatch "507f1f77bcf86cd799439011" 28 "Female" (Some "Brahmin")
      (Some "Hindu") (Some "California") (Some "Never Married")
      (Some "Looking for a caring and ambitious partner who values family and personal growth.");
    mkMatch "507f1f77bcf86cd799439012" 26 "Female" (Some "Kshatriya")
      (Some "Hindu") (Some "Texas") (Some "Never Married")
      (Some "Passionate about travel and cooking. Seeking someone with similar interests.");
    mkMatch "507f1f77bcf86cd799439013" 29 "Female" (Some "Brahmin")
      (Some "Hindu") (Some "New York") (Some "Never Married")
      (Some "Professional woman interested in building a meaningful relationship.") ].

(** ** The health badge *)

Module HealthBadge.

(** How one [checkHealth] call ends: with a response, [ok] or not, or with
    a rejected [fetch]. *)
Inductive Check : Type :=
| CheckResponded (ok : bool)
| CheckRejected.

(** The status a finished check sets. *)
Definition checkHealth (c : Check) : string :=
  match c with
  | CheckResponded true => "healthy"
  | CheckResponded false => "error"
  | CheckRejected => "error"
  end.

(** The status after the given checks have finished, in that order, from
    the initial ["checking"]. *)
Definition status_after (checks : list Check) : string :=
  foldl (λ _ c, checkHealth c) "checking" checks.

Definition label (status : string) : string :=
  if decide (status = "checking") then "Checking..."
  else if decide (status = "healthy") then "System Healthy"
  else "Offline".

(** The colour classes of the dot. *)
Definition dot (status : string) : string :=
  if decide (status = "healthy") then "bg-green-500 animate-pulse"
  else if decide (status = "checking") then "bg-yellow-500 animate-pulse"
  else "bg-red-500".

End HealthBadge.

(** [Number.isSafeInteger(n)]: an integer a JavaScript number holds exactly,
    and prints in plain decimal. *)
Definition safe_integer (n : Z) : Prop := - (2 ^ 53 - 1) ≤ n ≤ 2 ^ 53 - 1.

(** The numbers of a search object are safe integers. *)
Definition safe_numbers (p : Page.SearchParams) : Prop :=
  (∀ n, Page.age_tolerance p = Some n → safe_integer n)
  ∧ (∀ lo hi, Page.age_range p = Some (lo, hi) → safe_integer lo ∧ safe_integer hi).

(** The parameter names of a /match request, in the order [handleSearch]
    appends them. *)
Definition param_order : list string :=
  [ "query"; "user_id"; "gender"; "same_gender"; "caste"; "sect";
    "marital_status"; "state"; "age_tolerance"; "min_age"; "max_age"; "top_k" ].

(** A string that is present and not empty: what [if (s)] lets through. *)
Definition nonempty (s : option string) : option string :=
  match s with
  | Some v => if decide (v = "") then None else Some v
  | None => None
  end.

(** * Properties *)

(** ** The mock data *)

Lemma mock_decodes : as_match <$> Route.mockResults = Some <$> mock_matches.
Proof. vm_compute. reflexivity. Qed.

Lemma GET_status q : Route.status (Route.GET q) = 200.
Proof. reflexivity. Qed.

Lemma GET_results q : Route.results (Route.GET q) = Some Route.mockResults.
Proof. reflexivity. Qed.

Lemma GET_candidates q : Route.candidates (Route.GET q) = Some 45.
Proof. reflexivity. Qed.

Lemma GET_ok q : Route.ok (Route.GET q) = true.
Proof. reflexivity. Qed.

Lemma GET_query q :
  Route.query (Route.GET q) =
  Some (str_or (URLSearchParams.get q "query") "looking for suitable partner").
Proof. reflexivity. Qed.

(** ** C1: a request with neither [query] nor [user_id] *)

(** C1, as the specification states it, fails: the request without any
    parameter supplies neither [query] nor [user_id], and the handler answers
    it with status 200, not with an InvalidRequest (4xx) error. *)
Lemma C1_neither_param_is_not_rejected :
  ¬ (URLSearchParams.get [] "query" = None →
     URLSearchParams.get [] "user_id" = None →
     Route.invalid_request (Route.GET []) = true).
Proof. intros H. specialize (H eq_refl eq_refl). discriminate H. Qed.

(** C1 (amended): for every GET /match request that supplies neither a
    [query] nor a [user_id] parameter, the handler returns a successful
    response (status 200, not an InvalidRequest error) whose [query] field is
    the default text "looking for suitable partner" and whose [results] are
    the mock records. *)
Theorem C1_neither_param_gets_default_query (q : URLSearchParams.t) :
  URLSearchParams.get q "query" = None →
  URLSearchParams.get q "user_id" = None →
  Route.status (Route.GET q) = 200
  ∧ Route.ok (Route.GET q) = true
  ∧ Route.invalid_request (Route.GET q) = false
  ∧ Route.query (Route.GET q) = Some "looking for suitable partner"
  ∧ Route.results (Route.GET q) = Some Route.mockResults.
Proof.
  intros Hq _. rewrite GET_query, Hq. repeat split.
Qed.

Lemma C1_neither_param_gets_default_query_witness :
  Route.status (Route.GET [("gender", "Male")]) = 200
  ∧ Route.ok (Route.GET [("gender", "Male")]) = true
  ∧ Route.invalid_request (Route.GET [("gender", "Male")]) = false
  ∧ Route.query (Route.GET [("gender", "Male")]) = Some "looking for suitable partner"
  ∧ Route.results (Route.GET [("gender", "Male")]) = Some Route.mockResults.
Proof.
  apply (C1_neither_param_gets_default_query [("gender", "Male")]); reflexivity.
Defined.

(** ** C2: structured filters *)

Section FilterFacts.

Variable f : FilterSet.

Lemma record_satisfies_decoded (rs : list JsVal) (ms : list Match) :
  as_match <$> rs = Some <$> ms →
  (∀ r, r ∈ rs → record_satisfies f r = true) ↔
  Forall (λ m, satisfies f m = true) ms.
Proof.
  revert ms. induction rs as [|r rs IH]; intros [|m ms] Hdec;
    try discriminate Hdec.
  - split; [constructor | intros _ r Hr; inversion Hr].
  - injection Hdec as Hr Hrs. specialize (IH ms Hrs). split.
    + intros Hall. constructor.
      * specialize (Hall r (list_elem_of_here _ _)).
        unfold record_satisfies in Hall. now rewrite Hr in Hall.
      * apply IH. intros r' Hr'. apply Hall. now constructor.
    + intros Hall r' Hr'. inversion Hall as [|? ? Hm Hms]; subst.
      apply elem_of_cons in Hr' as [->|Hr'].
      * unfold record_satisfies. now rewrite Hr.
      * now apply IH.
Qed.

Lemma ci_eqb_true (a b : string) : ci_eqb a b = true ↔ lower a = lower b.
Proof. unfold ci_eqb. apply bool_decide_eq_true. Qed.

Lemma str_filter_holds_some (have : string) (want : option string) :
  str_filter_holds want (Some have) = true ↔
  ∀ w, want = Some w → lower w = lower have.
Proof.
  destruct want as [w|]; simpl.
  - rewrite ci_eqb_true. split.
    + intros H w' [= <-]. now symmetry.
    + intros H. symmetry. now apply H.
  - split; [intros _ w [=] | reflexivity].
Qed.

End FilterFacts.

Lemma str_filter_holds_two (a b : string) (want : option string) :
  lower a ≠ lower b →
  str_filter_holds want (Some a) = true →
  str_filter_holds want (Some b) = true →
  want = None.
Proof.
  intros Hne Ha Hb. destruct want as [w|]; [|reflexivity].
  apply str_filter_holds_some with (w := w) in Ha; [|reflexivity].
  apply str_filter_holds_some with (w := w) in Hb; [|reflexivity].
  congruence.
Qed.

Lemma min_age_holds_true (want : option Z) (age : Z) :
  min_age_holds want age = true ↔ ∀ lo, want = Some lo → lo ≤ age.
Proof.
  destruct want as [lo|]; simpl.
  - rewrite bool_decide_eq_true. split; [intros H ? [= <-]; exact H | auto].
  - split; [intros _ ? [=] | reflexivity].
Qed.

Lemma max_age_holds_true (want : option Z) (age : Z) :
  max_age_holds want age = true ↔ ∀ hi, want = Some hi → age ≤ hi.
Proof.
  destruct want as [hi|]; simpl.
  - rewrite bool_decide_eq_true. split; [intros H ? [= <-]; exact H | auto].
  - split; [intros _ ? [=] | reflexivity].
Qed.

Lemma satisfies_true (f : FilterSet) (m : Match) :
  satisfies f m = true ↔
    str_filter_holds (f_gender f) (Some (Gender m)) = true
    ∧ min_age_holds (f_min_age f) (Age m) = true
    ∧ max_age_holds (f_max_age f) (Age m) = true
    ∧ str_filter_holds (f_caste f) (Caste m) = true
    ∧ str_filter_holds (f_sect f) (Sect m) = true
    ∧ str_filter_holds (f_state f) (State m) = true
    ∧ str_filter_holds (f_marital_status f) (Marital_Status m) = true.
Proof. unfold satisfies. rewrite !andb_true_iff. tauto. Qed.

Lemma mock_matches_satisfy (f : FilterSet) :
  Forall (λ m, satisfies f m = true) mock_matches ↔ mock_admits f.
Proof.
  unfold mock_matches, mock_admits. rewrite !Forall_cons, !satisfies_true.
  cbn [Gender Age Caste Sect State Marital_Status].
  split.
  - intros ((Hg & Hlo & _ & Hc1 & Hs & Hst1 & Hm)
            & (_ & Hlo2 & _ & Hc2 & _ & Hst2 & _)
            & (_ & _ & Hhi & _ & _ & _ & _) & _).
    repeat split.
    + exact (proj1 (str_filter_holds_some _ _) Hg).
    + exact (proj1 (min_age_holds_true _ _) Hlo2).
    + exact (proj1 (max_age_holds_true _ _) Hhi).
    + now apply (str_filter_holds_two "Brahmin" "Kshatriya").
    + exact (proj1 (str_filter_holds_some _ _) Hs).
    + now apply (str_filter_holds_two "California" "Texas").
    + exact (proj1 (str_filter_holds_some _ _) Hm).
  - intros (Hg & Hlo & Hhi & Hc & Hs & Hst & Hm).
    rewrite Hc, Hst. cbn [str_filter_holds].
    assert (Hg' : str_filter_holds (f_gender f) (Some "Female") = true)
      by (apply str_filter_holds_some; assumption).
    assert (Hs' : str_filter_holds (f_sect f) (Some "Hindu") = true)
      by (apply str_filter_holds_some; assumption).
    assert (Hm' : str_filter_holds (f_marital_status f) (Some "Never Married") = true)
      by (apply str_filter_holds_some; assumption).
    rewrite Hg', Hs', Hm'.
    rewrite !min_age_holds_true, !max_age_holds_true.
    repeat split; try constructor; intros x Hx;
      try (specialize (Hlo x Hx)); try (specialize (Hhi x Hx)); lia.
Qed.

(** C2, as the specification states it, fails: the request
    [query=Looking for educated caring partner&gender=Male] specifies the
    gender filter "Male", and the first record of its [results] has gender
    "Female". *)
Lemma C2_gender_filter_is_ignored :
  ¬ (∀ rs r,
       Route.results (Route.GET [("query", "Looking for educated caring partner");
                                 ("gender", "Male")]) = Some rs →
       r ∈ rs →
       record_satisfies
         (filters_of [("query", "Looking for educated caring partner");
                      ("gender", "Male")]) r = true).
Proof.
  intros H.
  specialize (H Route.mockResults _ eq_refl (list_elem_of_here _ _)).
  vm_compute in H. discriminate H.
Qed.

Example filters_of_negative_bound :
  f_max_age (filters_of [("min_age", "-5"); ("max_age", "-1")]) = Some (-1)
  ∧ f_min_age (filters_of [("min_age", "-5"); ("max_age", "-1")]) = Some (-5)
  ∧ ¬ mock_admits (filters_of [("min_age", "-5"); ("max_age", "-1")]).
Proof.
  split; [reflexivity|]. split; [reflexivity|].
  intros (_ & _ & Hhi & _). specialize (Hhi (-1) eq_refl). lia.
Qed.

(** C2 (amended): for every GET /match request the [results] are the three
    fixed mock records whatever filters are specified; for every filter set,
    and so for the one the request specifies, every record of [results]
    satisfies every specified structured filter exactly when the filters are
    ones all three mock records satisfy: gender "female", min_age at most 26,
    max_age at least 29, sect "hindu", marital_status "never married"
    (strings up to letter case), and no caste or state filter. *)
Theorem C2_results_satisfy_filters_iff_mock_admits (q : URLSearchParams.t) :
  ∃ rs, Route.results (Route.GET q) = Some rs
        ∧ rs = Route.mockResults
        ∧ (∀ f : FilterSet,
             (∀ r, r ∈ rs → record_satisfies f r = true) ↔ mock_admits f)
        ∧ ((∀ r, r ∈ rs → record_satisfies (filters_of q) r = true)
           ↔ mock_admits (filters_of q)).
Proof.
  exists Route.mockResults. split; [apply GET_results|]. split; [reflexivity|].
  assert (H : ∀ f : FilterSet,
    (∀ r, r ∈ Route.mockResults → record_satisfies f r = true) ↔ mock_admits f).
  { intros f. rewrite (record_satisfies_decoded _ _ _ mock_decodes).
    apply mock_matches_satisfy. }
  split; [exact H | apply H].
Qed.

(** ** C3: no qualifying candidate *)

(** C3, as the specification states it, fails: under the request
    [query=educated partner&gender=Male] none of the handler's records
    satisfies the filters, and the response still lists three results and
    reports 45 candidates. *)
Lemma C3_no_candidate_still_lists_results :
  ¬ ((∀ r, r ∈ Route.mockResults →
        record_satisfies
          (filters_of [("query", "educated partner"); ("gender", "Male")]) r = false) →
     Route.ok (Route.GET [("query", "educated partner"); ("gender", "Male")]) = true
     ∧ Route.results (Route.GET [("query", "educated partner"); ("gender", "Male")]) = Some []
     ∧ Route.candidates (Route.GET [("query", "educated partner"); ("gender", "Male")]) = Some 0).
Proof.
  intros H. destruct H as (_ & Hres & _).
  - intros r Hr. unfold Route.mockResults in Hr.
    repeat (apply elem_of_cons in Hr as [->|Hr]; [vm_compute; reflexivity|]).
    inversion Hr.
  - rewrite GET_results in Hres. discriminate Hres.
Qed.

(** C3 (amended): for every match query, also one under which no candidate
    satisfies the specified filters, the response is a success (status 200,
    not an error); its [results] list holds the three mock records and its
    [candidates] field equals 45. *)
Theorem C3_response_is_always_the_mock (q : URLSearchParams.t) :
  Route.status (Route.GET q) = 200
  ∧ Route.ok (Route.GET q) = true
  ∧ Route.invalid_request (Route.GET q) = false
  ∧ Route.results (Route.GET q) = Some Route.mockResults
  ∧ (∃ rs, Route.results (Route.GET q) = Some rs
           ∧ length rs = 3%nat
           ∧ as_match <$> rs = Some <$> mock_matches)
  ∧ Route.candidates (Route.GET q) = Some 45.
Proof.
  split; [apply GET_status|]. split; [apply GET_ok|]. split; [reflexivity|].
  split; [apply GET_results|]. split.
  - exists Route.mockResults. split; [apply GET_results|].
    split; [reflexivity | apply mock_decodes].
  - apply GET_candidates.
Qed.

(** ** C4: the seed profile in Mode B *)

Lemma ids_mockResults :
  ids Route.mockResults =
  [ Some "507f1f77bcf86cd799439011"; Some "507f1f77bcf86cd799439012";
    Some "507f1f77bcf86cd799439013" ].
Proof. vm_compute. reflexivity. Qed.

(** C4, as the specification states it, fails: the Mode B request
    [user_id=507f1f77bcf86cd799439011] gets back a record whose [_id] is that
    very id. *)
Lemma C4_seed_appears_in_its_results :
  ¬ (∀ uid rs,
       mode_b_seed [("user_id", "507f1f77bcf86cd799439011")] = Some uid →
       Route.results (Route.GET [("user_id", "507f1f77bcf86cd799439011")]) = Some rs →
       Some uid ∉ ids rs).
Proof.
  intros H. apply (H _ Route.mockResults eq_refl eq_refl).
  rewrite ids_mockResults. constructor.
Qed.

(** C4 (amended): for every Mode B match query whose [user_id] is not the
    [_id] of one of the three mock records, the [user_id] does not appear as
    the [_id] of any record in the returned [results]. *)
Theorem C4_seed_outside_mock_is_absent (q : URLSearchParams.t) (uid : string)
    (rs : list JsVal) :
  mode_b_seed q = Some uid →
  uid ∉ _id <$> mock_matches →
  Route.results (Route.GET q) = Some rs →
  Some uid ∉ ids rs.
Proof.
  intros _ Hout Hres. rewrite GET_results in Hres. injection Hres as <-.
  rewrite ids_mockResults. intros Hin. apply Hout. cbn.
  repeat (apply elem_of_cons in Hin as [[= ->]|Hin]; [set_solver|]).
  inversion Hin.
Qed.

Lemma C4_seed_outside_mock_is_absent_witness :
  Some "507f1f77bcf86cd799439099" ∉ ids Route.mockResults.
Proof.
  apply (C4_seed_outside_mock_is_absent
           [("user_id", "507f1f77bcf86cd799439099"); ("top_k", "10")]
           "507f1f77bcf86cd799439099" Route.mockResults).
  - reflexivity.
  - cbn. intros Hin.
    repeat (apply elem_of_cons in Hin as [Heq|Hin]; [discriminate Heq|]).
    inversion Hin.
  - reflexivity.
Defined.

(** ** C5: [top_k] *)

(** C5, as the specification states it, fails: the request
    [query=caring partner&top_k=0] is answered with three results, not with
    an empty list. *)
Lemma C5_top_k_zero_still_lists_results :
  ¬ (top_k_of [("query", "caring partner"); ("top_k", "0")] = Some 0 →
     Route.ok (Route.GET [("query", "caring partner"); ("top_k", "0")]) = true
     ∧ Route.results (Route.GET [("query", "caring partner"); ("top_k", "0")]) = Some []).
Proof.
  intros H. destruct (H eq_refl) as [_ Hres].
  rewrite GET_results in Hres. discriminate Hres.
Qed.

(** C5 (amended): every GET /match request is answered successfully whatever
    its [top_k] (a [top_k] is never rejected, however large); the [results]
    list always has exactly three entries, so it has no more entries than
    [top_k] clamped to a maximum bound exactly when both [top_k] and the bound
    are at least 3, and it is not empty for [top_k=0]. *)
Theorem C5_top_k_is_ignored (q : URLSearchParams.t) :
  Route.ok (Route.GET q) = true
  ∧ Route.invalid_request (Route.GET q) = false
  ∧ ∃ rs, Route.results (Route.GET q) = Some rs
          ∧ length rs = 3%nat
          ∧ ∀ k bound, top_k_of q = Some k →
              (Z.of_nat (length rs) ≤ Z.min k bound ↔ 3 ≤ k ∧ 3 ≤ bound).
Proof.
  split; [apply GET_ok|]. split; [reflexivity|].
  exists Route.mockResults. split; [apply GET_results|]. split; [reflexivity|].
  intros k bound _. cbn [Route.mockResults length]. lia.
Qed.

(** ** C6: the shape of the response body *)

Lemma fromEntries_snoc (q : URLSearchParams.t) (k v : string) :
  URLSearchParams.fromEntries (q ++ [(k, v)]) =
  <[k := v]> (URLSearchParams.fromEntries q).
Proof. unfold URLSearchParams.fromEntries. now rewrite foldl_app. Qed.

(** [Object.fromEntries] keeps, for each name, the last value supplied. *)
Lemma fromEntries_lookup (q : URLSearchParams.t) (k : string) :
  URLSearchParams.fromEntries q !! k = URLSearchParams.get_last q k.
Proof.
  unfold URLSearchParams.get_last.
  induction q as [|[k' v] q IH] using rev_ind; [reflexivity|].
  rewrite fromEntries_snoc, reverse_snoc, lookup_insert. cbn.
  destruct (decide (k' = k)); [reflexivity | exact IH].
Qed.

Lemma fromEntries_dom (q : URLSearchParams.t) :
  dom (URLSearchParams.fromEntries q) = list_to_set q.*1.
Proof.
  induction q as [|[k v] q IH] using rev_ind; [apply dom_empty_L|].
  rewrite fromEntries_snoc, dom_insert_L, IH, fmap_app, list_to_set_app_L.
  cbn. rewrite (right_id_L ∅ (∪)). apply (comm_L (∪)).
Qed.

Lemma mockResults_profile_shaped : Forall profile_shaped Route.mockResults.
Proof.
  unfold Route.mockResults, profile_shaped.
  repeat constructor; eexists; vm_compute; reflexivity.
Qed.

(** C6: for every GET /match request the response is successful and its body
    is an object with exactly the fields [query], [filters], [candidates],
    [took_ms] and [results]; [query] is a string, [candidates] and [took_ms]
    are numbers, [filters] is the key-value map of the supplied query
    parameters (each supplied name with the last value supplied for it), and
    [results] is a list of profile-shaped records. *)
Theorem C6_response_body_shape (q : URLSearchParams.t) :
  Route.ok (Route.GET q) = true
  ∧ keys (Route.body (Route.GET q)) =
      {[ "query"; "filters"; "candidates"; "took_ms"; "results" ]}
  ∧ (∃ s, field "query" (Route.body (Route.GET q)) = Some (JsStr s))
  ∧ (∃ fs : gmap string string,
       field "filters" (Route.body (Route.GET q)) = Some (JsObj (JsStr <$> fs))
       ∧ dom fs = list_to_set q.*1
       ∧ ∀ k, fs !! k = URLSearchParams.get_last q k)
  ∧ (∃ n, field "candidates" (Route.body (Route.GET q)) = Some (JsNum n))
  ∧ (∃ n, field "took_ms" (Route.body (Route.GET q)) = Some (JsNum n))
  ∧ (∃ rs, field "results" (Route.body (Route.GET q)) = Some (JsArr rs)
           ∧ Forall profile_shaped rs).
Proof.
  split; [apply GET_ok|]. split.
  { cbn. rewrite !dom_insert_L, dom_empty_L. set_solver. }
  split; [eexists; reflexivity|]. split.
  { exists (URLSearchParams.fromEntries q). split; [reflexivity|].
    split; [apply fromEntries_dom | apply fromEntries_lookup]. }
  split; [eexists; reflexivity|]. split; [eexists; reflexivity|].
  exists Route.mockResults. split; [reflexivity | apply mockResults_profile_shaped].
Qed.

(** ** C7: order and duplicates in Mode A *)

(** The only numeric property of the mock records is [Age]. *)
Lemma mock_numeric_field (k : string) (r : JsVal) :
  r ∈ Route.mockResults →
  is_Some (field k r ≫= as_num) → k = "Age".
Proof.
  unfold Route.mockResults. intros Hr [n Hn].
  repeat (apply elem_of_cons in Hr as [->|Hr];
    [ cbn in Hn; rewrite !lookup_insert in Hn;
      repeat (case_decide; [subst; first [reflexivity | cbn in Hn; discriminate Hn] |]);
      now rewrite lookup_empty in Hn |]).
  inversion Hr.
Qed.

Lemma scores_by_head (k : string) (r : JsVal) (rs : list JsVal) (scores : list Z) :
  scores_by k (r :: rs) = Some scores → is_Some (field k r ≫= as_num).
Proof.
  unfold scores_by. cbn [mapM]. intros Hs.
  destruct (field k r ≫= as_num); [eauto | discriminate Hs].
Qed.

Lemma mockResults_not_sorted (k : string) :
  ¬ sorted_by_score k Route.mockResults.
Proof.
  intros (scores & Hs & Hsorted).
  assert (k = "Age") as ->.
  { apply scores_by_head in Hs as Hhd.
    eapply mock_numeric_field; [|exact Hhd]. constructor. }
  vm_compute in Hs. injection Hs as <-. vm_compute in Hsorted. discriminate Hsorted.
Qed.

Lemma mockResults_keys (r : JsVal) :
  r ∈ Route.mockResults → keys r = profile_keys.
Proof.
  unfold Route.mockResults, profile_keys. intros Hr.
  repeat (apply elem_of_cons in Hr as [->|Hr];
    [cbn; rewrite !dom_insert_L, dom_empty_L; set_solver |]).
  inversion Hr.
Qed.

Lemma ids_mockResults_NoDup : NoDup (ids Route.mockResults).
Proof.
  rewrite ids_mockResults.
  repeat (constructor; [intros Hin;
    repeat (apply elem_of_cons in Hin as [Heq|Hin]; [discriminate Heq|]);
    inversion Hin |]).
  constructor.
Qed.

(** C7, as the specification states it, fails: for the valid Mode A query
    [query=caring partner] there is no property of the returned records,
    whatever its name, by which the [results] list is in non-increasing
    order: the records carry no similarity score, and their one numeric
    property, [Age], runs 28, 26, 29. *)
Lemma C7_results_are_not_sorted_by_any_score :
  ¬ (valid_mode_a [("query", "caring partner")] →
     ∃ k rs, Route.results (Route.GET [("query", "caring partner")]) = Some rs
             ∧ sorted_by_score k rs
             ∧ NoDup (ids rs)).
Proof.
  intros H. destruct H as (k & rs & Hres & Hsorted & _).
  - split; [exists "caring partner"; split; [reflexivity | discriminate] | reflexivity].
  - rewrite GET_results in Hres. injection Hres as <-.
    exact (mockResults_not_sorted k Hsorted).
Qed.

(** C7 (amended): for every valid Mode A match query, no profile id ([_id])
    appears more than once in the returned [results] list, and every record
    has one; the records carry exactly the profile properties of the [Match]
    interface and no similarity score, and the list is not in non-increasing
    order of any numeric property. *)
Theorem C7_results_have_distinct_ids (q : URLSearchParams.t) :
  valid_mode_a q →
  ∃ rs, Route.results (Route.GET q) = Some rs
        ∧ NoDup (ids rs)
        ∧ Forall is_Some (ids rs)
        ∧ (∀ r, r ∈ rs → keys r = profile_keys)
        ∧ ∀ k, ¬ sorted_by_score k rs.
Proof.
  intros _. exists Route.mockResults. split; [apply GET_results|].
  split; [apply ids_mockResults_NoDup|]. split.
  - rewrite ids_mockResults. repeat constructor; eexists; reflexivity.
  - split; [apply mockResults_keys | apply mockResults_not_sorted].
Qed.

Lemma C7_results_have_distinct_ids_witness :
  ∃ rs, Route.results (Route.GET [("query", "educated partner from good family");
                                  ("gender", "Male"); ("top_k", "10")]) = Some rs
        ∧ NoDup (ids rs)
        ∧ Forall is_Some (ids rs)
        ∧ (∀ r, r ∈ rs → keys r = profile_keys)
        ∧ ∀ k, ¬ sorted_by_score k rs.
Proof.
  apply (C7_results_have_distinct_ids
           [("query", "educated partner from good family");
            ("gender", "Male"); ("top_k", "10")]).
  split; [eexists; split; [reflexivity | discriminate] | reflexivity].
Defined.

(** ** C8, C9: the compatibility score *)

Section Score.

Import AIReviewPanel.

Lemma score_before_cap_values (a b : Match) :
  score_before_cap a b ∈ [70; 75; 80; 85; 90; 95].
Proof.
  unfold score_before_cap.
  repeat case_bool_decide; cbn;
    repeat first [apply list_elem_of_here | apply list_elem_of_further].
Qed.

Lemma score_before_cap_bounds (a b : Match) : 70 ≤ score_before_cap a b ≤ 95.
Proof.
  pose proof (score_before_cap_values a b) as Hin.
  repeat (apply elem_of_cons in Hin as [->|Hin]; [lia|]). inversion Hin.
Qed.

Lemma score_before_cap_sym (a b : Match) :
  score_before_cap a b = score_before_cap b a.
Proof.
  assert (Hopt : ∀ x y : option string, bool_decide (x = y) = bool_decide (y = x))
    by (intros; apply bool_decide_ext; split; congruence).
  assert (Hage : bool_decide (Z.abs (Age a - Age b) ≤ 5)
                 = bool_decide (Z.abs (Age b - Age a) ≤ 5))
    by (apply bool_decide_ext; lia).
  unfold score_before_cap.
  now rewrite Hage, (Hopt (Caste a)), (Hopt (Sect a)), (Hopt (State a)),
    (Hopt (Marital_Status a)).
Qed.

(** C8: [generateCompatibilityScore] returns 0 whenever [match1] or [match2]
    is absent; when both are present it returns one of 70, 75, 80, 85, 90,
    95, and the result is the accumulated score itself: the cap at 100 never
    takes effect. *)
Theorem C8_score_range :
  (∀ match2, generateCompatibilityScore None match2 = 0)
  ∧ (∀ match1, generateCompatibilityScore match1 None = 0)
  ∧ ∀ a b,
      generateCompatibilityScore (Some a) (Some b) ∈ [70; 75; 80; 85; 90; 95]
      ∧ generateCompatibilityScore (Some a) (Some b) = score_before_cap a b
      ∧ score_before_cap a b < 100.
Proof.
  split; [reflexivity|]. split; [intros [m|]; reflexivity|].
  intros a b. pose proof (score_before_cap_bounds a b) as Hb.
  assert (Hcap : generateCompatibilityScore (Some a) (Some b) = score_before_cap a b)
    by (cbn; lia).
  rewrite Hcap. split; [apply score_before_cap_values|]. split; [reflexivity | lia].
Qed.

(** C9: the compatibility score is symmetric: swapping [match1] and [match2]
    yields the same value, whether or not either is present. *)
Theorem C9_score_symmetric (match1 match2 : option Match) :
  generateCompatibilityScore match1 match2 =
  generateCompatibilityScore match2 match1.
Proof.
  destruct match1 as [a|], match2 as [b|]; cbn; try reflexivity.
  now rewrite (score_before_cap_sym a b).
Qed.

End Score.

(** ** The query string: serialising and parsing back *)

Section UrlRoundTrip.

Import URLSearchParams.

Lemma string_app_cons (c : Ascii.ascii) (a b : string) :
  String c a +:+ b = String c (a +:+ b).
Proof. reflexivity. Qed.

Lemma string_app_assoc (a b c : string) : (a +:+ b) +:+ c = a +:+ (b +:+ c).
Proof.
  induction a as [|x a IH]; [reflexivity|].
  rewrite !string_app_cons. now rewrite IH.
Qed.

Lemma contains_cons_false (n : N) (c : Ascii.ascii) (a : string) :
  contains n (String c a) = false ↔ is_byte n c = false ∧ contains n a = false.
Proof. cbn [contains]. apply orb_false_iff. Qed.

Lemma contains_app (n : N) (a b : string) :
  contains n (a +:+ b) = contains n a || contains n b.
Proof.
  induction a as [|c a IH]; [reflexivity|].
  rewrite string_app_cons. cbn [contains]. rewrite IH. apply orb_assoc.
Qed.

(** The structuring bytes never occur in an encoded name or value. *)
Lemma encode_byte_clean (c : Ascii.ascii) : clean (encode_byte c).
Proof.
  destruct c as [[] [] [] [] [] [] [] []]; vm_compute; auto.
Qed.

Lemma clean_app (a b : string) : clean a → clean b → clean (a +:+ b).
Proof.
  unfold clean. rewrite !contains_app.
  intros (-> & -> & -> & ->) (-> & -> & -> & ->). auto.
Qed.

Lemma urlencode_clean (s : string) : clean (urlencode s).
Proof.
  induction s as [|c s IH]; [repeat split|].
  cbn [urlencode]. apply clean_app; [apply encode_byte_clean | exact IH].
Qed.

Lemma urldecode_encode_byte (c : Ascii.ascii) (rest : string) :
  urldecode (encode_byte c +:+ rest) = String c (urldecode rest).
Proof.
  destruct c as [[] [] [] [] [] [] [] []]; reflexivity.
Qed.

Lemma urldecode_urlencode (s : string) : urldecode (urlencode s) = s.
Proof.
  induction s as [|c s IH]; [reflexivity|].
  cbn [urlencode]. now rewrite urldecode_encode_byte, IH.
Qed.

Lemma cut_at_app (n : N) (c : Ascii.ascii) (a b : string) :
  contains n a = false → is_byte n c = true →
  cut_at n (a +:+ String c b) = (a, b).
Proof.
  intros Ha Hc. induction a as [|x a IH].
  - change (cut_at n (String c b) = (EmptyString, b)).
    cbn [cut_at]. now rewrite Hc.
  - apply contains_cons_false in Ha as [Hx Ha].
    rewrite string_app_cons. cbn [cut_at]. now rewrite Hx, (IH Ha).
Qed.

Lemma cut_at_clean (n : N) (a : string) :
  contains n a = false → cut_at n a = (a, EmptyString).
Proof.
  induction a as [|x a IH]; [reflexivity|].
  intros [Hx Ha]%contains_cons_false. cbn [cut_at]. now rewrite Hx, (IH Ha).
Qed.

Lemma split_on_clean (n : N) (a : string) :
  contains n a = false → split_on n a = [a].
Proof.
  induction a as [|x a IH]; [reflexivity|].
  intros [Hx Ha]%contains_cons_false. cbn [split_on]. now rewrite Hx, (IH Ha).
Qed.

Lemma split_on_app (n : N) (c : Ascii.ascii) (a b : string) :
  contains n a = false → is_byte n c = true →
  split_on n (a +:+ String c b) = a :: split_on n b.
Proof.
  intros Ha Hc. induction a as [|x a IH].
  - change (split_on n (String c b) = EmptyString :: split_on n b).
    cbn [split_on]. now rewrite Hc.
  - apply contains_cons_false in Ha as [Hx Ha].
    rewrite string_app_cons. cbn [split_on]. now rewrite Hx, (IH Ha).
Qed.

Lemma concat_cons2 (sep a b : string) (l : list string) :
  String.concat sep (a :: b :: l) = a +:+ sep +:+ String.concat sep (b :: l).
Proof. reflexivity. Qed.

Lemma split_on_concat (l : list string) :
  l ≠ [] → Forall (λ s, contains 38 s = false) l →
  split_on 38 (String.concat "&" l) = l.
Proof.
  induction l as [|a l IH]; [done|]. intros _ Hall.
  apply Forall_cons in Hall as [Ha Hl]. destruct l as [|b l].
  - now apply split_on_clean.
  - rewrite concat_cons2.
    change ("&" +:+ String.concat "&" (b :: l))
      with (String (Ascii.ascii_of_N 38) (String.concat "&" (b :: l))).
    rewrite split_on_app by done. now rewrite IH.
Qed.

Lemma contains_concat (n : N) (l : list string) :
  contains n "&" = false → Forall (λ s, contains n s = false) l →
  contains n (String.concat "&" l) = false.
Proof.
  intros Hsep. induction l as [|a l IH]; [reflexivity|].
  intros [Ha Hl]%Forall_cons. destruct l as [|b l]; [exact Ha|].
  rewrite concat_cons2, !contains_app, Ha, Hsep. now apply IH.
Qed.

Lemma piece_clean_amp (kv : string * string) : contains 38 (piece kv) = false.
Proof.
  unfold piece. rewrite !contains_app.
  destruct (urlencode_clean kv.1) as (_ & -> & _), (urlencode_clean kv.2) as (_ & -> & _).
  reflexivity.
Qed.

Lemma piece_clean_url (kv : string * string) :
  contains 35 (piece kv) = false ∧ contains 63 (piece kv) = false.
Proof.
  unfold piece. rewrite !contains_app.
  destruct (urlencode_clean kv.1) as (-> & _ & _ & ->),
    (urlencode_clean kv.2) as (-> & _ & _ & ->).
  split; reflexivity.
Qed.

Lemma piece_nonempty (kv : string * string) : piece kv ≠ EmptyString.
Proof.
  unfold piece. intros H.
  assert (Hc : contains 61 (urlencode kv.1 +:+ "=" +:+ urlencode kv.2) = false)
    by now rewrite H.
  rewrite !contains_app in Hc. cbn in Hc.
  destruct (contains 61 (urlencode kv.1)); discriminate Hc.
Qed.

Lemma parse_piece_piece (kv : string * string) : parse_piece (piece kv) = kv.
Proof.
  destruct kv as [k v]. unfold parse_piece, piece. cbn [fst snd].
  change ("=" +:+ urlencode v) with (String (Ascii.ascii_of_N 61) (urlencode v)).
  rewrite cut_at_app; [|apply urlencode_clean | reflexivity].
  now rewrite !urldecode_urlencode.
Qed.

(** Parsing a serialised parameter list gives the list back. *)
Lemma parse_toString (q : URLSearchParams.t) : parse (toString q) = q.
Proof.
  unfold parse, toString. destruct q as [|kv q]; [reflexivity|].
  rewrite split_on_concat; [|done|].
  - generalize (kv :: q). clear. intros q.
    induction q as [|kv q IH]; [reflexivity|].
    cbn [fmap list_fmap]. rewrite filter_cons_True by apply piece_nonempty.
    cbn [fmap list_fmap]. rewrite parse_piece_piece. f_equal. exact IH.
  - apply Forall_fmap, Forall_forall. intros x _. apply piece_clean_amp.
Qed.

Lemma url_query_url (p : Page.SearchParams) :
  url_query (Page.url p) = toString (Page.queryParams p).
Proof.
  unfold url_query, Page.url, Page.API_BASE_URL.
  generalize (Page.queryParams p). intros q.
  assert (Hq : contains 35 (toString q) = false ∧ contains 63 (toString q) = false).
  { split; apply contains_concat; try reflexivity;
      apply Forall_fmap, Forall_forall; intros x _; apply piece_clean_url. }
  destruct Hq as [H35 H63].
  rewrite (cut_at_clean 35).
  - cbn [fst].
    change ("http://localhost:3000" +:+ "/match?" +:+ toString q)
      with ("http://localhost:3000/match" +:+ String (Ascii.ascii_of_N 63) (toString q)).
    rewrite (cut_at_app 63) by reflexivity. reflexivity.
  - rewrite !contains_app, H35. reflexivity.
Qed.

(** The server reads back exactly the parameters [handleSearch] collected. *)
Lemma of_url_url (p : Page.SearchParams) :
  of_url (Page.url p) = Page.queryParams p.
Proof. unfold of_url. now rewrite url_query_url, parse_toString. Qed.

End UrlRoundTrip.

(** ** C10: the request built by [handleSearch] *)

Section HandleSearch.

Import Page.

Lemma elem_of_append (q : URLSearchParams.t) (name value : string) (kv : string * string) :
  kv ∈ URLSearchParams.append q name value ↔ kv ∈ q ∨ kv = (name, value).
Proof.
  unfold URLSearchParams.append. rewrite elem_of_app, list_elem_of_singleton.
  reflexivity.
Qed.

Lemma elem_of_append_if_str (q : URLSearchParams.t) (name : string)
    (s : option string) (kv : string * string) :
  kv ∈ append_if_str q name s ↔
  kv ∈ q ∨ (kv.1 = name ∧ s = Some kv.2 ∧ kv.2 ≠ "").
Proof.
  unfold append_if_str. destruct s as [v|]; [destruct (decide (v = "")) as [->|Hv]|].
  - split; [auto | intros [H|(_ & [= <-] & Hne)]; [exact H | contradiction]].
  - rewrite elem_of_append. destruct kv as [k' v']. cbn. split.
    + intros [H|[= -> ->]]; auto.
    + intros [H|(-> & [= ->] & _)]; auto.
  - split; [auto | intros [H|(_ & [=] & _)]; exact H].
Qed.

Lemma elem_of_append_same_gender (q : URLSearchParams.t) (o : option bool)
    (kv : string * string) :
  kv ∈ match o with
       | Some true => URLSearchParams.append q "same_gender" "true"
       | _ => q
       end ↔
  kv ∈ q ∨ (kv = ("same_gender", "true") ∧ o = Some true).
Proof.
  destruct o as [[|]|]; rewrite ?elem_of_append; split;
    first [ tauto | intros [H|[_ [=]]]; exact H ].
Qed.

Lemma elem_of_append_age_tolerance (q : URLSearchParams.t) (o : option Z)
    (kv : string * string) :
  kv ∈ match o with
       | Some n => URLSearchParams.append q "age_tolerance" (Number_toString n)
       | None => q
       end ↔
  kv ∈ q ∨ ∃ n, o = Some n ∧ kv = ("age_tolerance", Number_toString n).
Proof.
  destruct o as [n|]; rewrite ?elem_of_append; split.
  - intros [H|H]; eauto.
  - intros [H|(n' & [= <-] & H)]; auto.
  - auto.
  - intros [H|(n' & [=] & _)]; exact H.
Qed.

Lemma elem_of_append_age_range (q : URLSearchParams.t) (o : option (Z * Z))
    (kv : string * string) :
  kv ∈ match o with
       | Some (lo, hi) =>
           URLSearchParams.append
             (URLSearchParams.append q "min_age" (Number_toString lo))
             "max_age" (Number_toString hi)
       | None => q
       end ↔
  kv ∈ q ∨ ∃ lo hi, o = Some (lo, hi)
                     ∧ (kv = ("min_age", Number_toString lo)
                        ∨ kv = ("max_age", Number_toString hi)).
Proof.
  destruct o as [[lo hi]|]; rewrite ?elem_of_append; split.
  - intros [[H|H]|H]; eauto 6.
  - intros [H|(lo' & hi' & [= <- <-] & [H|H])]; auto.
  - auto.
  - intros [H|(lo' & hi' & [=] & _)]; exact H.
Qed.

(** Which pairs [handleSearch] puts in the query string. *)
Lemma elem_of_queryParams (p : SearchParams) (kv : string * string) :
  kv ∈ queryParams p ↔
    (kv.1 = "query" ∧ preference p = Some kv.2 ∧ kv.2 ≠ "")
    ∨ (kv.1 = "user_id" ∧ user_id p = Some kv.2 ∧ kv.2 ≠ "")
    ∨ (kv.1 = "gender" ∧ gender p = Some kv.2 ∧ kv.2 ≠ "")
    ∨ (kv = ("same_gender", "true") ∧ same_gender p = Some true)
    ∨ (kv.1 = "caste" ∧ caste p = Some kv.2 ∧ kv.2 ≠ "")
    ∨ (kv.1 = "sect" ∧ sect p = Some kv.2 ∧ kv.2 ≠ "")
    ∨ (kv.1 = "marital_status" ∧ marital_status p = Some kv.2 ∧ kv.2 ≠ "")
    ∨ (kv.1 = "state" ∧ state p = Some kv.2 ∧ kv.2 ≠ "")
    ∨ (∃ n, age_tolerance p = Some n ∧ kv = ("age_tolerance", Number_toString n))
    ∨ (∃ lo hi, age_range p = Some (lo, hi)
                ∧ (kv = ("min_age", Number_toString lo) ∨ kv = ("max_age", Number_toString hi)))
    ∨ kv = ("top_k", "10").
Proof.
  unfold queryParams. cbv zeta.
  rewrite elem_of_append, elem_of_append_age_range, elem_of_append_age_tolerance,
    !elem_of_append_if_str, elem_of_append_same_gender, !elem_of_append_if_str,
    elem_of_nil.
  tauto.
Qed.

Lemma has_true (q : URLSearchParams.t) (name : string) :
  URLSearchParams.has q name = true ↔ ∃ v, (name, v) ∈ q.
Proof.
  unfold URLSearchParams.has. rewrite bool_decide_eq_true, list_elem_of_fmap.
  split.
  - intros ([k v] & -> & Hin). now exists v.
  - intros (v & Hin). now exists (name, v).
Qed.

Lemma concat_snoc (sep : string) (l : list string) (x : string) :
  ∃ pre, String.concat sep (l ++ [x]) = pre +:+ x.
Proof.
  induction l as [|a l [pre IH]].
  - now exists EmptyString.
  - exists (a +:+ sep +:+ pre). cbn [app String.concat].
    destruct (l ++ [x]) as [|b l'] eqn:Hl; [now destruct l|].
    rewrite IH. now rewrite !string_app_assoc.
Qed.

Lemma url_ends_with_top_k (p : SearchParams) :
  ∃ pre, url p = pre +:+ "top_k=10".
Proof.
  unfold url, queryParams, URLSearchParams.toString. cbv zeta.
  match goal with
  | |- context [URLSearchParams.append ?q "top_k" "10"] => generalize q
  end.
  intros q. unfold URLSearchParams.append. rewrite fmap_app.
  destruct (concat_snoc "&" (URLSearchParams.piece <$> q)
              (URLSearchParams.piece ("top_k", "10"))) as [pre Hpre].
  change (URLSearchParams.piece <$> [("top_k", "10")])
    with [URLSearchParams.piece ("top_k", "10")].
  rewrite Hpre. exists (API_BASE_URL +:+ "/match?" +:+ pre).
  change (URLSearchParams.piece ("top_k", "10")) with "top_k=10".
  now rewrite !string_app_assoc.
Qed.

(** C10: for every search parameter object, the /match URL built by
    [handleSearch] carries, as read back by [new URL(url).searchParams],
    exactly the parameters [handleSearch] appended; among them there is a
    [query] parameter iff [preference] is present and non-empty, a [user_id]
    parameter iff [user_id] is present and non-empty, [same_gender=true] (and
    any [same_gender] parameter at all) iff [same_gender] is true, [min_age]
    and [max_age] each exactly when [age_range] is provided, and always
    [top_k=10] and no other [top_k]; the URL itself ends with [top_k=10]. *)
Theorem C10_handleSearch_query_string (p : SearchParams) :
  URLSearchParams.of_url (url p) = queryParams p
  ∧ (URLSearchParams.has (URLSearchParams.of_url (url p)) "query" = true
     ↔ ∃ s, preference p = Some s ∧ s ≠ "")
  ∧ (URLSearchParams.has (URLSearchParams.of_url (url p)) "user_id" = true
     ↔ ∃ s, user_id p = Some s ∧ s ≠ "")
  ∧ (("same_gender", "true") ∈ URLSearchParams.of_url (url p)
     ↔ same_gender p = Some true)
  ∧ (URLSearchParams.has (URLSearchParams.of_url (url p)) "same_gender" = true
     ↔ same_gender p = Some true)
  ∧ (URLSearchParams.has (URLSearchParams.of_url (url p)) "min_age" = true
     ↔ is_Some (age_range p))
  ∧ (URLSearchParams.has (URLSearchParams.of_url (url p)) "max_age" = true
     ↔ is_Some (age_range p))
  ∧ ("top_k", "10") ∈ URLSearchParams.of_url (url p)
  ∧ (∀ v, ("top_k", v) ∈ URLSearchParams.of_url (url p) → v = "10")
  ∧ ∃ pre, url p = pre +:+ "top_k=10".
Proof.
  rewrite of_url_url. split; [reflexivity|].
  rewrite !has_true.
  repeat setoid_rewrite elem_of_queryParams. cbn [fst snd].
  repeat split; try apply url_ends_with_top_k; try naive_solver.
  - intros [[lo hi] Hr]. exists (Number_toString lo).
    do 9 right; left. exists lo, hi. auto.
  - intros [[lo hi] Hr]. exists (Number_toString hi).
    do 9 right; left. exists lo, hi. auto.
Qed.

End HandleSearch.

Example url_of_form_defaults :
  Page.url (Page.mkSearchParams (Some "Male") (Some false) (Some (22, 32))
              None None (Some "Never Married") None
              (Some "caring & educated") None (Some 5)) =
  "http://localhost:3000/match?query=caring+%26+educated&gender=Male&marital_status=Never+Married&age_tolerance=5&min_age=22&max_age=32&top_k=10".
Proof. vm_compute. reflexivity. Qed.

Example of_url_of_form_defaults :
  URLSearchParams.of_url
    "http://localhost:3000/match?query=caring+%26+educated&gender=Male&marital_status=Never+Married&age_tolerance=5&min_age=22&max_age=32&top_k=10" =
  [ ("query", "caring & educated"); ("gender", "Male");
    ("marital_status", "Never Married"); ("age_tolerance", "5");
    ("min_age", "22"); ("max_age", "32"); ("top_k", "10") ].
Proof. vm_compute. reflexivity. Qed.

(** * Further properties of the dashboard code *)

(** ** The review panel's reasons *)

Section Reasons.

Import AIReviewPanel.

(** The score is 70 plus 5 for every reason [generateReasons] returns, except
    when no factor matches: then the score is 70 and the three generic
    reasons are returned. *)
Theorem reasons_account_for_score (a b : Match) :
  (generateCompatibilityScore (Some a) (Some b) = 70
   ∧ generateReasons (Some a) (Some b) = generic_reasons)
  ∨ (generateCompatibilityScore (Some a) (Some b)
       = 70 + 5 * Z.of_nat (length (generateReasons (Some a) (Some b)))
     ∧ (1 ≤ length (generateReasons (Some a) (Some b)) ≤ 5)%nat
     ∧ generateReasons (Some a) (Some b) = pushed_reasons a b).
Proof.
  unfold generateCompatibilityScore, generateReasons, score_before_cap,
    pushed_reasons.
  repeat case_bool_decide; cbn in *; try (exfalso; lia);
    first [ left; split; [lia | reflexivity]
          | right; repeat split; first [lia | reflexivity] ].
Qed.

(** [generateReasons] never returns an empty list, and the panel lists at
    most four reasons. *)
Theorem reasons_never_empty (match1 match2 : option Match) :
  generateReasons match1 match2 ≠ []
  ∧ listed_reasons match1 match2 ≠ []
  ∧ (length (listed_reasons match1 match2) ≤ 4)%nat
  ∧ listed_reasons match1 match2 `prefix_of` generateReasons match1 match2.
Proof.
  assert (Hne : generateReasons match1 match2 ≠ []).
  { unfold generateReasons. case_bool_decide as Hlen; [|discriminate].
    intros Hnil. rewrite Hnil in Hlen. cbn in Hlen. lia. }
  unfold listed_reasons. repeat split.
  - exact Hne.
  - destruct (generateReasons match1 match2); [done | discriminate].
  - rewrite length_take. lia.
  - apply prefix_take.
Qed.

(** The last reason pushed, "Similar marital status", is listed in the panel
    exactly when the marital statuses agree and at least one other factor
    fails: with all five factors matching (score 95) the panel's four lines
    leave it out. *)
Theorem marital_reason_listed_iff (a b : Match) :
  "Similar marital status" ∈ listed_reasons (Some a) (Some b) ↔
  Marital_Status a = Marital_Status b
  ∧ generateCompatibilityScore (Some a) (Some b) < 95.
Proof.
  unfold listed_reasons, generateCompatibilityScore, generateReasons,
    score_before_cap, pushed_reasons, generic_reasons.
  repeat case_bool_decide; cbn in *; try (exfalso; lia);
    rewrite ?elem_of_cons, ?elem_of_nil;
    intuition (try discriminate; try lia; try congruence).
Qed.

Lemma pushed_reasons_sym (a b : Match) : pushed_reasons a b = pushed_reasons b a.
Proof.
  assert (Hopt : ∀ x y : option string, bool_decide (x = y) = bool_decide (y = x))
    by (intros; apply bool_decide_ext; split; congruence).
  assert (Hage : bool_decide (Z.abs (Age a - Age b) ≤ 5)
                 = bool_decide (Z.abs (Age b - Age a) ≤ 5))
    by (apply bool_decide_ext; lia).
  unfold pushed_reasons.
  now rewrite Hage, (Hopt (Caste a)), (Hopt (Sect a)), (Hopt (State a)),
    (Hopt (Marital_Status a)).
Qed.

(** The reasons, like the score, do not depend on which match is [match1]. *)
Theorem generateReasons_symmetric (match1 match2 : option Match) :
  generateReasons match1 match2 = generateReasons match2 match1
  ∧ listed_reasons match1 match2 = listed_reasons match2 match1.
Proof.
  assert (H : generateReasons match1 match2 = generateReasons match2 match1).
  { destruct match1 as [a|], match2 as [b|]; try reflexivity.
    unfold generateReasons. now rewrite (pushed_reasons_sym a b). }
  unfold listed_reasons. now rewrite H.
Qed.

End Reasons.

(** ** What the page derives from its matches *)

Section HomeDerived.

Import Home.

(** The review panel's score is 0 exactly when the page has fewer than two
    matches; with two or more it is the score of the first two, between 70
    and 95, and later matches never influence it. *)
Theorem review_score_needs_two_matches (matches : list Match) :
  (review_score matches = 0 ↔ (length matches < 2)%nat)
  ∧ (∀ a b rest, matches = a :: b :: rest →
       review_score matches
         = AIReviewPanel.generateCompatibilityScore (Some a) (Some b)
       ∧ 70 ≤ review_score matches ≤ 95
       ∧ review_reasons matches = AIReviewPanel.listed_reasons (Some a) (Some b)).
Proof.
  assert (Htwo : ∀ a b rest,
    review_score (a :: b :: rest)
      = AIReviewPanel.generateCompatibilityScore (Some a) (Some b)
    ∧ 70 ≤ review_score (a :: b :: rest) ≤ 95).
  { intros a b rest. split; [reflexivity|].
    unfold review_score. cbn.
    pose proof (score_before_cap_bounds a b). lia. }
  split.
  - destruct matches as [|a [|b rest]]; cbn [length].
    + split; [lia | reflexivity].
    + split; [lia | reflexivity].
    + destruct (Htwo a b rest) as [_ Hb]. split; lia.
  - intros a b rest ->. destruct (Htwo a b rest) as [Heq Hb].
    repeat split; try exact Heq; lia.
Qed.

(** The two top matches are the first two of the candidates list, which are
    the first ten of the matches, rank by rank. *)
Theorem topMatches_lead_allCandidates (matches : list Match) :
  topMatches matches `prefix_of` allCandidates matches
  ∧ allCandidates matches `prefix_of` matches
  ∧ length (topMatches matches) = (length matches `min` 2)%nat
  ∧ length (allCandidates matches) = (length matches `min` 10)%nat
  ∧ ∀ i m, topMatches matches !! i = Some m →
           allCandidates matches !! i = Some m ∧ matches !! i = Some m.
Proof.
  unfold topMatches, allCandidates.
  assert (H2 : take 2 matches = take 2 (take 10 matches))
    by (rewrite take_take; f_equal).
  split; [rewrite H2; apply prefix_take|].
  split; [apply prefix_take|].
  split; [rewrite length_take; lia|].
  split; [rewrite length_take; lia|].
  intros i m Hi. apply lookup_take_Some in Hi as [Hm Hlt].
  split; [|exact Hm]. rewrite lookup_take_lt by lia. exact Hm.
Qed.

End HomeDerived.

(** ** The route's echo of [query] and [filters] *)

Section RouteEcho.

(** The [query] field of the response is never empty: it is the first
    [query] parameter when that is present and not empty, and the default
    text otherwise. *)
Theorem GET_query_echo (q : URLSearchParams.t) :
  ∃ s, Route.query (Route.GET q) = Some s
       ∧ s ≠ ""
       ∧ (∀ v, URLSearchParams.get q "query" = Some v → v ≠ "" → s = v)
       ∧ (nonempty (URLSearchParams.get q "query") = None →
          s = "looking for suitable partner").
Proof.
  exists (str_or (URLSearchParams.get q "query") "looking for suitable partner").
  split; [apply GET_query|].
  destruct (URLSearchParams.get q "query") as [v|]; cbn.
  - destruct (decide (v = "")) as [->|Hv].
    + repeat split; [discriminate | intros ? [= <-]; contradiction].
    + repeat split; [exact Hv | intros ? [= <-] _; reflexivity | discriminate].
  - repeat split; [discriminate | intros ? [=]].
Qed.



End RouteEcho.

(** ** The request [handleSearch] builds, name by name *)

Section Builder.

Import Page.

Lemma get_Some_elem_of (q : URLSearchParams.t) (k v : string) :
  URLSearchParams.get q k = Some v → (k, v) ∈ q.
Proof.
  induction q as [|[k' v'] q IH]; [discriminate|]. cbn.
  destruct (decide (k' = k)) as [->|Hne].
  - intros [= ->]. constructor.
  - intros H. apply list_elem_of_further, IH, H.
Qed.

Lemma get_None_not_elem_of (q : URLSearchParams.t) (k : string) :
  URLSearchParams.get q k = None ↔ k ∉ q.*1.
Proof.
  induction q as [|[k' v'] q IH]; cbn.
  - split; [intros _ H; inversion H | reflexivity].
  - rewrite not_elem_of_cons. destruct (decide (k' = k)) as [->|Hne].
    + split; [discriminate | intros [H _]; contradiction].
    + rewrite IH. split; [intros H; split; [congruence | exact H] | intros [_ H]; exact H].
Qed.

Lemma get_NoDup (q : URLSearchParams.t) (k v : string) :
  NoDup q.*1 → URLSearchParams.get q k = Some v ↔ (k, v) ∈ q.
Proof.
  intros Hnd. split; [apply get_Some_elem_of|].
  induction q as [|[k' v'] q IH]; [intros H; inversion H|].
  cbn in Hnd. apply NoDup_cons in Hnd as [Hk' Hnd]. cbn.
  intros [[= -> ->]|Hin]%elem_of_cons.
  - now rewrite decide_True.
  - destruct (decide (k' = k)) as [->|Hne]; [|now apply IH].
    exfalso. apply Hk'. apply list_elem_of_fmap. now exists (k, v).
Qed.

(** With no name repeated, the first and the last value of a name agree. *)
Lemma get_last_NoDup (q : URLSearchParams.t) (k : string) :
  NoDup q.*1 → URLSearchParams.get_last q k = URLSearchParams.get q k.
Proof.
  intros Hnd. unfold URLSearchParams.get_last.
  assert (Hrev : NoDup (reverse q).*1) by (rewrite fmap_reverse, reverse_Permutation; exact Hnd).
  apply option_eq. intros v.
  rewrite (get_NoDup _ _ _ Hnd), (get_NoDup _ _ _ Hrev). apply elem_of_reverse.
Qed.

Lemma keys_sub_append (q : URLSearchParams.t) (k v : string) (l : list string) :
  q.*1 `sublist_of` l → (URLSearchParams.append q k v).*1 `sublist_of` l ++ [k].
Proof.
  intros H. unfold URLSearchParams.append. rewrite fmap_app.
  now apply sublist_app.
Qed.

Lemma keys_sub_append_if_str (q : URLSearchParams.t) (k : string)
    (s : option string) (l : list string) :
  q.*1 `sublist_of` l → (append_if_str q k s).*1 `sublist_of` l ++ [k].
Proof.
  intros H. unfold append_if_str.
  destruct s as [v|]; [destruct (decide (v = ""))|];
    first [now apply keys_sub_append | now apply sublist_inserts_r].
Qed.

Lemma param_order_steps :
  param_order =
  ((((((((((([] ++ ["query"]) ++ ["user_id"]) ++ ["gender"]) ++ ["same_gender"])
          ++ ["caste"]) ++ ["sect"]) ++ ["marital_status"]) ++ ["state"])
       ++ ["age_tolerance"]) ++ ["min_age"]) ++ ["max_age"]) ++ ["top_k"].
Proof. reflexivity. Qed.

Lemma queryParams_names_sub (p : SearchParams) :
  (queryParams p).*1 `sublist_of` param_order.
Proof.
  unfold queryParams. cbv zeta. rewrite param_order_steps.
  apply keys_sub_append.
  destruct (age_range p) as [[lo hi]|].
  - do 2 apply keys_sub_append.
    destruct (age_tolerance p);
      [apply keys_sub_append | apply sublist_inserts_r];
      do 4 apply keys_sub_append_if_str;
      (destruct (same_gender p) as [[|]|];
        [apply keys_sub_append | apply sublist_inserts_r | apply sublist_inserts_r]);
      do 3 apply keys_sub_append_if_str; reflexivity.
  - do 2 apply sublist_inserts_r.
    destruct (age_tolerance p);
      [apply keys_sub_append | apply sublist_inserts_r];
      do 4 apply keys_sub_append_if_str;
      (destruct (same_gender p) as [[|]|];
        [apply keys_sub_append | apply sublist_inserts_r | apply sublist_inserts_r]);
      do 3 apply keys_sub_append_if_str; reflexivity.
Qed.

Lemma queryParams_NoDup (p : SearchParams) : NoDup (queryParams p).*1.
Proof.
  apply (sublist_NoDup _ param_order); [|apply queryParams_names_sub].
  unfold param_order.
  repeat (apply NoDup_cons; split;
    [rewrite ?elem_of_cons, elem_of_nil; intuition discriminate|]).
  constructor.
Qed.

(** The names in the URL [handleSearch] builds follow one fixed order and
    none is repeated; the server therefore reads the same value for a name
    whether it takes the first or the last one. *)
Theorem handleSearch_names_ordered (p : SearchParams) :
  (URLSearchParams.of_url (url p)).*1 `sublist_of` param_order
  ∧ NoDup (URLSearchParams.of_url (url p)).*1
  ∧ ∀ k, URLSearchParams.get_last (URLSearchParams.of_url (url p)) k
         = URLSearchParams.get (URLSearchParams.of_url (url p)) k.
Proof.
  rewrite of_url_url. split; [apply queryParams_names_sub|].
  split; [apply queryParams_NoDup|].
  intros k. apply get_last_NoDup, queryParams_NoDup.
Qed.

Lemma nonempty_Some (s : option string) (v : string) :
  nonempty s = Some v ↔ s = Some v ∧ v ≠ "".
Proof.
  unfold nonempty. destruct s as [w|]; [destruct (decide (w = "")) as [->|Hw]|].
  - split; [discriminate | intros [[= <-] H]; contradiction].
  - split; [intros [= <-]; auto | intros [[= <-] _]; reflexivity].
  - split; [discriminate | intros [[=] _]].
Qed.

Lemma get_queryParams (p : SearchParams) (k v : string) :
  URLSearchParams.get (queryParams p) k = Some v ↔ (k, v) ∈ queryParams p.
Proof. apply get_NoDup, queryParams_NoDup. Qed.

Lemma handleSearch_values_query (p : SearchParams) :
  URLSearchParams.get (URLSearchParams.of_url (url p)) "query" = nonempty (preference p).
Proof.
  rewrite of_url_url. apply option_eq. intros v.
  rewrite get_queryParams, elem_of_queryParams, nonempty_Some. cbn [fst snd].
  naive_solver.
Qed.

(** What the server reads under each name is the value of the corresponding
    field of the search object: the string fields when present and not
    empty, ["true"] for a true [same_gender] and ["10"] for [top_k]; and,
    when the numbers of the search object are safe integers, the decimal text
    of [age_tolerance] and of the two ends of [age_range]. *)
Theorem handleSearch_values (p : SearchParams) :
  URLSearchParams.get (URLSearchParams.of_url (url p)) "query" = nonempty (preference p)
  ∧ URLSearchParams.get (URLSearchParams.of_url (url p)) "user_id" = nonempty (user_id p)
  ∧ URLSearchParams.get (URLSearchParams.of_url (url p)) "gender" = nonempty (gender p)
  ∧ URLSearchParams.get (URLSearchParams.of_url (url p)) "same_gender"
      = (if same_gender p is Some true then Some "true" else None)
  ∧ URLSearchParams.get (URLSearchParams.of_url (url p)) "caste" = nonempty (caste p)
  ∧ URLSearchParams.get (URLSearchParams.of_url (url p)) "sect" = nonempty (sect p)
  ∧ URLSearchParams.get (URLSearchParams.of_url (url p)) "marital_status"
      = nonempty (marital_status p)
  ∧ URLSearchParams.get (URLSearchParams.of_url (url p)) "state" = nonempty (state p)
  ∧ URLSearchParams.get (URLSearchParams.of_url (url p)) "top_k" = Some "10"
  ∧ (safe_numbers p →
     URLSearchParams.get (URLSearchParams.of_url (url p)) "age_tolerance"
       = Number_toString <$> age_tolerance p
     ∧ URLSearchParams.get (URLSearchParams.of_url (url p)) "min_age"
       = (λ r, Number_toString r.1) <$> age_range p
     ∧ URLSearchParams.get (URLSearchParams.of_url (url p)) "max_age"
       = (λ r, Number_toString r.2) <$> age_range p).
Proof.
  rewrite of_url_url.
  repeat first [split | intros _]; apply option_eq; intros v;
    rewrite get_queryParams, elem_of_queryParams, ?nonempty_Some; cbn [fst snd];
    try (destruct (same_gender p) as [[|]|]);
    try (destruct (age_tolerance p) as [n|]);
    try (destruct (age_range p) as [[lo hi]|]);
    cbn; naive_solver.
Qed.

Lemma handleSearch_values_witness :
  URLSearchParams.get
    (URLSearchParams.of_url
       (url (mkSearchParams (Some "Male") (Some false) (Some (22, 32))
               None None None None (Some "caring partner") None (Some 5))))
    "age_tolerance" = Some "5"
  ∧ URLSearchParams.get
      (URLSearchParams.of_url
         (url (mkSearchParams (Some "Male") (Some false) (Some (22, 32))
                 None None None None (Some "caring partner") None (Some 5))))
      "min_age" = Some "22"
  ∧ URLSearchParams.get
      (URLSearchParams.of_url
         (url (mkSearchParams (Some "Male") (Some false) (Some (22, 32))
                 None None None None (Some "caring partner") None (Some 5))))
      "max_age" = Some "32".
Proof.
  apply (proj2 (proj2 (proj2 (proj2 (proj2 (proj2 (proj2 (proj2 (proj2
          (handleSearch_values
             (mkSearchParams (Some "Male") (Some false) (Some (22, 32))
                None None None None (Some "caring partner") None (Some 5)))))))))))).
  split.
  - intros n [= <-]. unfold safe_integer. lia.
  - intros lo hi [= <- <-]. unfold safe_integer. lia.
Defined.

(** Serialising any parameter list into a query string and parsing that
    string back gives the same list: no name or value is lost or altered,
    whatever bytes it contains. *)
Theorem query_string_round_trip (q : URLSearchParams.t) :
  URLSearchParams.parse (URLSearchParams.toString q) = q
  ∧ URLSearchParams.of_url
      (API_BASE_URL +:+ "/match?" +:+ URLSearchParams.toString q) = q.
Proof.
  split; [apply parse_toString|].
  unfold URLSearchParams.of_url, URLSearchParams.url_query, API_BASE_URL.
  assert (Hq : URLSearchParams.contains 35 (URLSearchParams.toString q) = false).
  { apply contains_concat; [reflexivity|].
    apply Forall_fmap, Forall_forall. intros x _. apply piece_clean_url. }
  rewrite (cut_at_clean 35).
  - cbn [fst].
    change ("http://localhost:3000" +:+ "/match?" +:+ URLSearchParams.toString q)
      with ("http://localhost:3000/match"
            +:+ String (Ascii.ascii_of_N 63) (URLSearchParams.toString q)).
    rewrite (cut_at_app 63) by reflexivity. apply parse_toString.
  - rewrite !contains_app, Hq. reflexivity.
Qed.

(** The mock route, asked with the URL [handleSearch] builds, echoes the
    search: its [query] field is [preference] when that is present and not
    empty and the default text otherwise, and its [filters] map holds exactly
    the parameters [handleSearch] appended. *)
Theorem route_echoes_handleSearch (p : SearchParams) :
  Route.ok (Route.GET (URLSearchParams.of_url (url p))) = true
  ∧ Route.query (Route.GET (URLSearchParams.of_url (url p)))
      = Some (str_or (preference p) "looking for suitable partner")
  ∧ ∃ fs : gmap string string,
      field "filters" (Route.body (Route.GET (URLSearchParams.of_url (url p))))
        = Some (JsObj (JsStr <$> fs))
      ∧ ∀ k v, fs !! k = Some v ↔ (k, v) ∈ queryParams p.
Proof.
  pose proof (handleSearch_values_query p) as Hq.
  rewrite of_url_url in *. split; [reflexivity|]. split.
  - rewrite GET_query, Hq. f_equal. unfold nonempty, str_or.
    destruct (preference p) as [s|]; [|reflexivity].
    destruct (decide (s = "")) as [->|Hs]; cbn; [reflexivity|].
    now rewrite decide_False.
  - exists (URLSearchParams.fromEntries (queryParams p)). split; [reflexivity|].
    intros k v. rewrite fromEntries_lookup, get_last_NoDup by apply queryParams_NoDup.
    apply get_queryParams.
Qed.

End Builder.

(** ** The page state across searches *)

Section HomeState.

Import Home.

Variable null_read_message : string → string.

Local Abbreviation handleSearch := (Home.handleSearch null_read_message).
Local Abbreviation try_fetch := (Home.try_fetch null_read_message).

Lemma handleSearch_cases (params : Page.SearchParams) (fetched : Fetched) (s : State) :
  (∃ results candidates,
     try_fetch fetched = inr (results, candidates)
     ∧ handleSearch params fetched s
       = mkState params results false None candidates)
  ∨ (∃ err,
       try_fetch fetched = inl err
       ∧ handleSearch params fetched s
         = mkState params (JsArr []) false (Some (errorMessage err))
             (totalCandidates s)).
Proof.
  unfold Home.handleSearch, handleSearch_settle.
  destruct (try_fetch fetched) as [err|[results candidates]]; eauto.
Qed.

Lemma try_fetch_succeeds (fetched : Fetched) :
  (∃ r, try_fetch fetched = inr r) ↔
  ∃ status data, fetched = Responded status (Json data)
                 ∧ response_ok status = true ∧ data ≠ JsNull.
Proof.
  split.
  - intros [r Hr]. destruct fetched as [err|status body]; [discriminate Hr|].
    cbn in Hr. destruct (response_ok status) eqn:Hok; cbn in Hr.
    + destruct body as [data|message]; [|discriminate Hr].
      exists status, data. repeat split; [exact Hok|].
      intros ->. discriminate Hr.
    + destruct (read _ _ _); discriminate Hr.
  - intros (status & data & -> & Hok & Hdata). cbn. rewrite Hok. cbn.
    destruct data; try contradiction; cbn; eauto.
Qed.

(** Whatever the outcome, once a search has settled the spinner is off and
    the search parameters are the ones searched for; a failed search empties
    the result list but leaves the candidate count as it was before. *)
Theorem handleSearch_settled (params : Page.SearchParams) (fetched : Fetched)
    (s : State) :
  loading (handleSearch params fetched s) = false
  ∧ searchParams (handleSearch params fetched s) = params
  ∧ ∀ message, error (handleSearch params fetched s) = Some message →
      matches (handleSearch params fetched s) = JsArr []
      ∧ totalCandidates (handleSearch params fetched s) = totalCandidates s.
Proof.
  destruct (handleSearch_cases params fetched s)
    as [(results & candidates & _ & ->)|(err & _ & ->)]; cbn.
  - repeat split; discriminate.
  - repeat split.
Qed.

(** A search ends without an error exactly when the server answered with a
    2xx status and a JSON body other than [null]: a rejected [fetch], any
    other status, an unparsable body and a [null] body all end in an error. *)
Theorem handleSearch_succeeds_iff (params : Page.SearchParams) (fetched : Fetched)
    (s : State) :
  error (handleSearch params fetched s) = None ↔
  ∃ status data, fetched = Responded status (Json data)
                 ∧ response_ok status = true ∧ data ≠ JsNull.
Proof.
  rewrite <- try_fetch_succeeds.
  destruct (handleSearch_cases params fetched s)
    as [(results & candidates & Htry & ->)|(err & Htry & ->)]; cbn; rewrite Htry.
  - split; [eauto | reflexivity].
  - split; [discriminate | intros [r [=]]].
Qed.

(** A failed response whose JSON body carries a non-empty string [detail]
    is reported with exactly that text. *)
Theorem backend_detail_is_the_error (params : Page.SearchParams) (status : Z)
    (data : JsVal) (detail : string) (s : State) :
  response_ok status = false →
  field "detail" data = Some (JsStr detail) →
  detail ≠ "" →
  error (handleSearch params (Responded status (Json data)) s) = Some detail.
Proof.
  intros Hok Hdetail Hne. unfold Home.handleSearch, handleSearch_settle. cbn.
  rewrite Hok. cbn. destruct data; try discriminate Hdetail.
  cbn in *. rewrite Hdetail. cbn.
  now rewrite bool_decide_eq_false_2.
Qed.

(** A failed response whose body is not JSON, or is a JSON value other than
    [null] without a [detail] property, is reported as "API error: " followed
    by the status. *)
Theorem status_is_the_error_without_detail (params : Page.SearchParams)
    (status : Z) (body : Body) (s : State) :
  response_ok status = false →
  (∀ data, body = Json data → data ≠ JsNull ∧ field "detail" data = None) →
  error (handleSearch params (Responded status body) s)
    = Some ("API error: " +:+ Page.Number_toString status).
Proof.
  intros Hok Hbody. unfold Home.handleSearch, handleSearch_settle. cbn.
  rewrite Hok. cbn. destruct body as [data|message]; [|reflexivity].
  destruct (Hbody data eq_refl) as [Hnull Hnone].
  destruct data; try contradiction; cbn in *; now rewrite ?Hnone.
Qed.

(** A successful response whose JSON body has no [results] (or a falsy one)
    is not an error: the result list is empty and the page shows its empty
    state. *)
Theorem missing_results_show_empty_state (params : Page.SearchParams)
    (status : Z) (data : JsVal) (s : State) :
  response_ok status = true →
  data ≠ JsNull →
  or_else (field "results" data) (JsArr []) = JsArr [] →
  error (handleSearch params (Responded status (Json data)) s) = None
  ∧ matches (handleSearch params (Responded status (Json data)) s) = JsArr []
  ∧ panels (handleSearch params (Responded status (Json data)) s)
    = Some (false, false, true, false).
Proof.
  intros Hok Hnull Hres.
  assert (Hs : handleSearch params (Responded status (Json data)) s
               = mkState params (JsArr []) false None
                   (or_else (field "candidates" data) (JsNum 0))).
  { unfold Home.handleSearch, handleSearch_settle. cbn. rewrite Hok. cbn.
    destruct data; try contradiction; cbn in *; now rewrite ?Hres. }
  rewrite Hs. repeat split.
Qed.

(** Against this repository's mock route every search succeeds, whatever
    is searched for: the page ends with the three mock records as matches, 45
    candidates and no error, and shows the results panel alone. *)
Theorem search_against_mock_route (params : Page.SearchParams) (s : State) :
  handleSearch params (mock_fetch params) s
    = mkState params (JsArr Route.mockResults) false None (JsNum 45)
  ∧ panels (handleSearch params (mock_fetch params) s)
    = Some (false, false, false, true)
  ∧ mapM as_match Route.mockResults = Some mock_matches
  ∧ review_score mock_matches = 85.
Proof.
  assert (Hs : handleSearch params (mock_fetch params) s
               = mkState params (JsArr Route.mockResults) false None (JsNum 45))
    by reflexivity.
  rewrite Hs. repeat split; vm_compute; reflexivity.
Qed.




(** Clear does not cancel a pending search: pressed while the [fetch] is
    under way, it only resets the stored search parameters; when the [fetch]
    settles, results, error, candidate count and spinner end up exactly as if
    Clear had not been pressed. *)
Theorem clear_does_not_cancel_pending_search (params : Page.SearchParams)
    (fetched : Fetched) (s : State) :
  handleSearch_settle null_read_message fetched
    (handleClear (handleSearch_begin params s))
  = mkState no_params
      (matches (handleSearch params fetched s))
      (loading (handleSearch params fetched s))
      (error (handleSearch params fetched s))
      (totalCandidates (handleSearch params fetched s)).
Proof.
  unfold Home.handleSearch, handleSearch_settle, handleClear, handleSearch_begin.
  destruct (try_fetch fetched) as [err|[results candidates]]; reflexivity.
Qed.


End HomeState.

Lemma backend_detail_is_the_error_witness :
  Home.error (Home.handleSearch Home.v8_null_read_message Home.no_params
           (Home.Responded 404 (Home.Json (obj [("detail", JsStr "User not found")])))
           Home.initial)
  = Some "User not found".
Proof.
  apply (backend_detail_is_the_error Home.v8_null_read_message Home.no_params 404
           (obj [("detail", JsStr "User not found")]) "User not found" Home.initial);
    [reflexivity | reflexivity | discriminate].
Defined.

Lemma status_is_the_error_without_detail_witness :
  Home.error (Home.handleSearch Home.v8_null_read_message Home.no_params (Home.Responded 502 (Home.NotJson "Unexpected token <"))
           Home.initial)
  = Some ("API error: " +:+ Page.Number_toString 502).
Proof.
  apply (status_is_the_error_without_detail Home.v8_null_read_message Home.no_params 502
           (Home.NotJson "Unexpected token <") Home.initial);
    [reflexivity | intros data H; discriminate H].
Defined.

Lemma missing_results_show_empty_state_witness :
  Home.error (Home.handleSearch Home.v8_null_read_message Home.no_params
           (Home.Responded 200 (Home.Json (obj [("candidates", JsNum 0)]))) Home.initial) = None
  ∧ Home.matches (Home.handleSearch Home.v8_null_read_message Home.no_params
               (Home.Responded 200 (Home.Json (obj [("candidates", JsNum 0)]))) Home.initial)
    = JsArr []
  ∧ Home.panels (Home.handleSearch Home.v8_null_read_message Home.no_params
              (Home.Responded 200 (Home.Json (obj [("candidates", JsNum 0)]))) Home.initial)
    = Some (false, false, true, false).
Proof.
  apply (missing_results_show_empty_state Home.v8_null_read_message Home.no_params 200
           (obj [("candidates", JsNum 0)]) Home.initial);
    [reflexivity | discriminate | reflexivity].
Defined.


(** ** The health badge *)

Section Health.

Import HealthBadge.

(** The badge reads "Checking..." only until the first check finishes; from
    then on it shows the outcome of the latest finished check, "System
    Healthy" with the green dot for an ok response and "Offline" with the red
    dot for any other response or a rejected request. *)
Theorem badge_follows_latest_check (checks : list Check) :
  label (status_after checks)
    = match last checks with
      | None => "Checking..."
      | Some (CheckResponded true) => "System Healthy"
      | Some _ => "Offline"
      end
  ∧ dot (status_after checks)
    = match last checks with
      | None => "bg-yellow-500 animate-pulse"
      | Some (CheckResponded true) => "bg-green-500 animate-pulse"
      | Some _ => "bg-red-500"
      end.
Proof.
  unfold status_after. destruct checks as [|c checks] using rev_ind.
  - split; reflexivity.
  - rewrite foldl_app, last_snoc. cbn [foldl].
    destruct c as [[|]|]; split; reflexivity.
Qed.

End Health.
